(** * Workflow orchestration layer of sanzo_n8n_mcp

    A shallow embedding of [sanzo_n8n_mcp/models.py] and
    [sanzo_n8n_mcp/workflow_manager.py]: the bounded workflow queue, the
    single-submission path with its polling wait, the background drain
    loop, the metrics store, the trigger rate limit, the retention
    cleanup and the batch protocol.

    Conventions.
    - A [datetime] is an integer number of microseconds; a [timedelta]
      is a difference of two of them.
    - A Python [float] duration is an exact rational ([Qc]).
    - [WorkflowExecution] objects are mutable and shared between the
      queue, the completed map, the metrics store and the callers, so
      they live in an object store ([heap]) and the containers hold
      references ([addr]) to them.
    - The code between two [await]s of a coroutine runs without
      interruption on the event loop; each such segment is one [Event]
      of the model and reads the clock once. *)

From stdpp Require Import gmap strings list fin_maps pretty sorting.
From Stdlib Require Import ZArith QArith Qcanon Qround Lia.

Close Scope Q_scope.
Close Scope Qc_scope.

(** ** models.py *)

Inductive WorkflowType :=
  | CUSTOMER_ANALYSIS
  | FOLLOW_UP_SEQUENCES
  | CRM_LEAD_MANAGEMENT
  | PHOTO_ANALYSIS_PROCESSING.

Inductive WorkflowStatus :=
  | PENDING
  | RUNNING
  | COMPLETED
  | FAILED
  | CANCELLED
  | TIMEOUT.

#[global] Instance WorkflowType_eq_dec : EqDecision WorkflowType.
Proof. solve_decision. Defined.

#[global] Instance WorkflowStatus_eq_dec : EqDecision WorkflowStatus.
Proof. solve_decision. Defined.

Definition WorkflowType_code (t : WorkflowType) : nat :=
  match t with
  | CUSTOMER_ANALYSIS => 0
  | FOLLOW_UP_SEQUENCES => 1
  | CRM_LEAD_MANAGEMENT => 2
  | PHOTO_ANALYSIS_PROCESSING => 3
  end.

Definition WorkflowType_of_code (n : nat) : WorkflowType :=
  match n with
  | 0 => CUSTOMER_ANALYSIS
  | 1 => FOLLOW_UP_SEQUENCES
  | 2 => CRM_LEAD_MANAGEMENT
  | _ => PHOTO_ANALYSIS_PROCESSING
  end.

#[global] Instance WorkflowType_countable : Countable WorkflowType.
Proof.
  apply (inj_countable' WorkflowType_code WorkflowType_of_code).
  by intros [].
Defined.

(** [WorkflowType.value] *)
Definition WorkflowType_value (t : WorkflowType) : string :=
  match t with
  | CUSTOMER_ANALYSIS => "customer-analysis"
  | FOLLOW_UP_SEQUENCES => "follow-up-sequences"
  | CRM_LEAD_MANAGEMENT => "crm-lead-management"
  | PHOTO_ANALYSIS_PROCESSING => "photo-analysis-processing"
  end.

(** The values of a [Dict[str, Any]] payload that the manager itself
    writes (strings and integers); anything else is an opaque token. *)
Inductive Value :=
  | VStr (s : string)
  | VInt (z : Z)
  | VOpaque (n : nat).

#[global] Instance Value_eq_dec : EqDecision Value.
Proof. solve_decision. Defined.

Abbreviation Payload := (gmap string Value).
Abbreviation datetime := Z (only parsing).
Abbreviation addr := nat (only parsing).

Record WorkflowExecution := mkExecution {
  execution_id : string;
  workflow_type : WorkflowType;
  status : WorkflowStatus;
  input_data : Payload;
  output_data : option Payload;
  error_message : option string;
  started_at : datetime;
  completed_at : option datetime;
  duration_seconds : option Qc;
  n8n_execution_id : option string;
  correlation_id : option string;
  retry_count : nat
}.

#[global] Instance WorkflowExecution_eq_dec : EqDecision WorkflowExecution.
Proof. solve_decision. Defined.

#[global] Instance WorkflowExecution_inhabited : Inhabited WorkflowExecution :=
  populate (mkExecution "" CUSTOMER_ANALYSIS PENDING ∅ None None 0 None None None None 0).

Record WorkflowMetrics := mkMetrics {
  m_workflow_type : WorkflowType;
  total_executions : nat;
  successful_executions : nat;
  failed_executions : nat;
  average_duration_seconds : Qc;
  success_rate : Qc;
  last_execution : option datetime
}.

Record BatchWorkflowRequest := mkBatchRequest {
  workflows : list WorkflowType;
  shared_data : Payload;
  individual_data : gmap WorkflowType Payload;
  delay_between_workflows : Z;
  fail_fast : bool;
  b_correlation_id : option string
}.

Record BatchWorkflowResult := mkBatchResult {
  batch_id : string;
  total_workflows : nat;
  successful_workflows : nat;
  failed_workflows : nat;
  execution_results : list WorkflowExecution;
  b_started_at : datetime;
  b_completed_at : option datetime;
  total_duration_seconds : option Qc
}.

Record WorkflowTriggerConfig := mkTrigger {
  trigger_name : string;
  t_workflow_type : WorkflowType;
  trigger_conditions : Payload;
  trigger_schedule : option string;
  enabled : bool;
  max_executions_per_hour : Z;
  data_template : Payload
}.

(** ** Time *)

Definition microseconds_per_second : Z := 1000000.

(** [timedelta(days=d)], [timedelta(hours=h)] *)
Definition timedelta_days (d : Z) : Z := (d * 86400 * microseconds_per_second)%Z.
Definition timedelta_hours (h : Z) : Z := (h * 3600 * microseconds_per_second)%Z.

(** [td.total_seconds()] *)
Definition total_seconds (td : Z) : Qc := Q2Qc (td # 1000000).

(** Python truthiness of an [Optional[float]]: [None] and [0.0] are falsy. *)
Definition truthy_float (d : option Qc) : bool :=
  match d with
  | Some q => negb (bool_decide (q = 0%Qc))
  | None => false
  end.

(** Python truthiness of an [Optional[int]]. *)
Definition truthy_int (z : option Z) : bool :=
  match z with
  | Some n => negb (n =? 0)%Z
  | None => false
  end.

(** Python truthiness of an [Optional[str]]. *)
Definition truthy_str (s : option string) : bool :=
  match s with
  | Some EmptyString => false
  | Some _ => true
  | None => false
  end.

(** ** class WorkflowQueue *)

Module WorkflowQueue.

Record t := mk {
  queue : list addr;                       (* deque(maxlen=max_size) *)
  maxlen : nat;
  running_workflows : gset string;
  completed_workflows : gmap string addr;
  max_concurrent : nat
}.

(** [__init__] *)
Definition init (max_size : nat) : t :=
  mk [] max_size ∅ ∅ 5.

Definition set_queue (q : t) (l : list addr) : t :=
  mk l (maxlen q) (running_workflows q) (completed_workflows q) (max_concurrent q).

Definition set_running (q : t) (r : gset string) : t :=
  mk (queue q) (maxlen q) r (completed_workflows q) (max_concurrent q).

Definition set_completed (q : t) (c : gmap string addr) : t :=
  mk (queue q) (maxlen q) (running_workflows q) c (max_concurrent q).

Definition add_workflow (q : t) (execution : addr) : bool * t :=
  if maxlen q <=? length (queue q) then (false, q)
  else (true, set_queue q (queue q ++ [execution])).

Definition get_next_workflow (q : t) : option addr * t :=
  if max_concurrent q <=? size (running_workflows q) then (None, q)
  else match queue q with
       | [] => (None, q)
       | w :: rest => (Some w, set_queue q rest)
       end.

Definition mark_running (q : t) (execution_id : string) : t :=
  set_running q ({[execution_id]} ∪ running_workflows q).

(** [execution] is the reference, [execution_id] the id field read
    through it. *)
Definition mark_completed (q : t) (execution_id : string) (execution : addr) : t :=
  set_completed (set_running q (running_workflows q ∖ {[execution_id]}))
                (<[execution_id := execution]> (completed_workflows q)).

Definition get_queue_size (q : t) : nat := length (queue q).

Definition get_running_count (q : t) : nat := size (running_workflows q).

End WorkflowQueue.

(** ** Python built-ins used by the manager *)

(** [sorted(l, key=key, reverse=True)]: descending and stable, so that
    elements with equal keys keep their order in [l]. *)
Fixpoint insert_reverse {A} (key : A → Z) (x : A) (l : list A) : list A :=
  match l with
  | [] => [x]
  | y :: l' =>
      if (key x <? key y)%Z then y :: insert_reverse key x l'
      else x :: y :: l'
  end.

Definition sorted_reverse {A} (key : A → Z) (l : list A) : list A :=
  foldr (insert_reverse key) [] l.

(** [max(x :: l, key=key)]: the first element with the largest key. *)
Fixpoint max_by {A} (key : A → Z) (x : A) (l : list A) : A :=
  match l with
  | [] => x
  | y :: l' => max_by key (if (key x <? key y)%Z then y else x) l'
  end.

(** [sum(l)] over floats *)
Definition sum_Qc (l : list Qc) : Qc := foldr Qcplus 0%Qc l.

Definition Qc_of_nat (n : nat) : Qc := Q2Qc (inject_Z (Z.of_nat n)).

(** ** Writes to the fields of a [WorkflowExecution] object *)

(** [e.status = s; e.error_message = msg; e.completed_at = now] *)
Definition set_failure (e : WorkflowExecution) (s : WorkflowStatus)
    (msg : string) (now : datetime) : WorkflowExecution :=
  mkExecution (execution_id e) (workflow_type e) s (input_data e)
    (output_data e) (Some msg) (started_at e) (Some now)
    (duration_seconds e) (n8n_execution_id e) (correlation_id e)
    (retry_count e).

(** The six assignments of the drain loop after the gateway returned
    [result]. *)
Definition copy_result (workflow result : WorkflowExecution) : WorkflowExecution :=
  mkExecution (execution_id workflow) (workflow_type workflow) (status result)
    (input_data workflow) (output_data result) (error_message result)
    (started_at workflow) (completed_at result) (duration_seconds result)
    (n8n_execution_id result) (correlation_id workflow)
    (retry_count workflow).

(** The four assignments of the drain loop's [except] branch. *)
Definition set_exception (workflow : WorkflowExecution) (text : string)
    (now : datetime) : WorkflowExecution :=
  mkExecution (execution_id workflow) (workflow_type workflow) FAILED
    (input_data workflow) (output_data workflow)
    (Some ("Execution failed: " +:+ text)) (started_at workflow) (Some now)
    (Some (total_seconds (now - started_at workflow)))
    (n8n_execution_id workflow) (correlation_id workflow)
    (retry_count workflow).

(** What [n8n_client.trigger_workflow] did when the drain loop's
    [await] on it finished. *)
Inductive GatewayOutcome :=
  | GwResult (result : WorkflowExecution)
  | GwException (text : string).

(** ** class WorkflowManager *)

Module WorkflowManager.

Record t := mk {
  queue : WorkflowQueue.t;
  metrics_store : gmap WorkflowType (list addr);
  trigger_configs : gmap string WorkflowTriggerConfig;
  (** the [WorkflowExecution] objects the manager holds references to *)
  heap : list WorkflowExecution;
  (** [_process_workflow_queue]: the local [workflow] while the loop
      awaits the gateway, [None] at the top of the loop *)
  draining : option addr;
  (** suspended [execute_workflow] calls, by their [execution]:
      the locals [start_time] and [timeout] *)
  waiting : gmap addr (datetime * Z)
}.

Definition set_queue (m : t) (q : WorkflowQueue.t) : t :=
  mk q (metrics_store m) (trigger_configs m) (heap m) (draining m) (waiting m).
Definition set_metrics_store (m : t) (s : gmap WorkflowType (list addr)) : t :=
  mk (queue m) s (trigger_configs m) (heap m) (draining m) (waiting m).
Definition set_trigger_configs (m : t) (c : gmap string WorkflowTriggerConfig) : t :=
  mk (queue m) (metrics_store m) c (heap m) (draining m) (waiting m).
Definition set_heap (m : t) (h : list WorkflowExecution) : t :=
  mk (queue m) (metrics_store m) (trigger_configs m) h (draining m) (waiting m).
Definition set_draining (m : t) (d : option addr) : t :=
  mk (queue m) (metrics_store m) (trigger_configs m) (heap m) d (waiting m).
Definition set_waiting (m : t) (w : gmap addr (datetime * Z)) : t :=
  mk (queue m) (metrics_store m) (trigger_configs m) (heap m) (draining m) w.

(** [__init__]; the queue has the default [max_size] of 1000 *)
Definition init : t := mk (WorkflowQueue.init 1000) ∅ ∅ [] None ∅.

(** the object behind a reference *)
Definition obj (m : t) (a : addr) : WorkflowExecution := heap m !!! a.

(** [metrics_store.get(workflow_type, [])] *)
Definition ledger (m : t) (k : WorkflowType) : list addr :=
  default [] (metrics_store m !! k).

Definition max_executions_per_type : nat := 1000.

Definition _update_metrics (m : t) (execution : addr) : t :=
  let k := workflow_type (obj m execution) in
  let l := ledger m k ++ [execution] in
  set_metrics_store m
    (<[k := if max_executions_per_type <? length l
            then take max_executions_per_type
                   (sorted_reverse (λ a, started_at (obj m a)) l)
            else l]> (metrics_store m)).

Definition metrics_of (wt : WorkflowType)
    (executions : list WorkflowExecution) : WorkflowMetrics :=
  match executions with
  | [] => mkMetrics wt 0 0 0 0%Qc 0%Qc None
  | e0 :: rest =>
      let total := length executions in
      let successful :=
        length (filter (λ e, status e = COMPLETED) executions) in
      let failed :=
        length (filter (λ e, status e = FAILED) executions) in
      let durations : list Qc :=
        omap (λ e, if truthy_float (duration_seconds e)
                      && bool_decide (status e = COMPLETED)
                   then duration_seconds e else None) executions in
      let avg_duration :=
        match durations with
        | [] => 0%Qc
        | _ => (sum_Qc durations / Qc_of_nat (length durations))%Qc
        end in
      mkMetrics wt total successful failed avg_duration
        (if 0 <? total
         then (Qc_of_nat successful / Qc_of_nat total * Qc_of_nat 100)%Qc
         else 0%Qc)
        (Some (started_at (max_by started_at e0 rest)))
  end.

Definition get_workflow_metrics (m : t) (wt : WorkflowType) : WorkflowMetrics :=
  metrics_of wt (obj m <$> ledger m wt).

Definition add_automated_trigger (m : t) (c : WorkflowTriggerConfig) : t :=
  set_trigger_configs m (<[trigger_name c := c]> (trigger_configs m)).

Definition remove_automated_trigger (m : t) (name : string) : bool * t :=
  (bool_decide (is_Some (trigger_configs m !! name)),
   set_trigger_configs m (delete name (trigger_configs m))).

(** the list comprehension of [_should_trigger_workflow] *)
Definition recent_executions (m : t) (c : WorkflowTriggerConfig)
    (current_time : datetime) : list addr :=
  filter (λ a, (current_time - timedelta_hours 1 < started_at (obj m a))%Z)
         (ledger m (t_workflow_type c)).

Definition _should_trigger_workflow (m : t) (c : WorkflowTriggerConfig)
    (current_time : datetime) : bool :=
  if (max_executions_per_hour c <=? Z.of_nat (length (recent_executions m c current_time)))%Z
  then false
  else false.

(** The triggers for which one pass of [_process_automated_triggers]
    calls [execute_workflow]. *)
Definition triggers_fired (m : t) (current_time : datetime) : list WorkflowTriggerConfig :=
  filter (λ c, enabled c = true ∧ _should_trigger_workflow m c current_time = true)
         ((map_to_list (trigger_configs m)).*2).

Definition cleanup_old_executions (m : t) (retention_days : Z) (now : datetime) : t :=
  let cutoff_date := (now - timedelta_days retention_days)%Z in
  let store :=
    (λ l : list addr, filter (λ a, (cutoff_date < started_at (obj m a))%Z) l)
      <$> metrics_store m in
  let completed := WorkflowQueue.completed_workflows (queue m) in
  let to_remove :=
    (filter (λ kv : string * addr, (started_at (obj m kv.2) < cutoff_date)%Z)
            (map_to_list completed)).*1 in
  set_queue (set_metrics_store m store)
    (WorkflowQueue.set_completed (queue m) (foldr delete completed to_remove)).

(** *** execute_workflow

    A call runs without interruption from its entry to the first
    [asyncio.sleep] of the polling loop (or to its [return]); each
    wake-up runs one turn of the loop. *)

(** What [execute_workflow] returned: the reference it hands to the
    caller ([None] for the record of a rejected admission, which no
    container of the manager ever held) and the fields of that object
    at the time of the return. *)
Inductive Reply :=
  | Returned (ref : option addr) (r : WorkflowExecution).

Definition default_timeout : Z := 300.

(** [timeout_override or 300] *)
Definition effective_timeout (timeout_override : option Z) : Z :=
  if truthy_int timeout_override then default (0%Z) timeout_override
  else default_timeout.

Definition timeout_message (timeout : Z) : string :=
  "Workflow timed out after " +:+ pretty timeout +:+ " seconds".

(** The lines after the loop: the timeout is written onto
    [execution], which goes to the metrics store and is returned. *)
Definition expire (m : t) (execution : addr) (timeout : Z) (now : datetime)
    : t * option Reply :=
  let m1 := set_heap m
    (<[execution := set_failure (obj m execution) TIMEOUT
                      (timeout_message timeout) now]> (heap m)) in
  let m2 := _update_metrics m1 execution in
  (set_waiting m2 (delete execution (waiting m2)),
   Some (Returned (Some execution) (obj m2 execution))).

(** One turn of the [while] loop for the call that owns [execution]. *)
Definition poll (m : t) (execution : addr) (start_time : datetime)
    (timeout : Z) (now : datetime) : t * option Reply :=
  if (now - start_time <? timeout * microseconds_per_second)%Z then
    let eid := execution_id (obj m execution) in
    match WorkflowQueue.completed_workflows (queue m) !! eid with
    | Some completed_execution =>
        let m1 := _update_metrics m completed_execution in
        (set_waiting m1 (delete execution (waiting m1)),
         Some (Returned (Some completed_execution)
                        (obj m1 completed_execution)))
    | None =>
        if bool_decide (eid ∈ WorkflowQueue.running_workflows (queue m)) then
          (* await asyncio.sleep(1) *)
          (set_waiting m (<[execution := (start_time, timeout)]> (waiting m)), None)
        else if bool_decide
                  (obj m execution ∈ (obj m <$> WorkflowQueue.queue (queue m))) then
          (* await asyncio.sleep(0.5) *)
          (set_waiting m (<[execution := (start_time, timeout)]> (waiting m)), None)
        else
          (* break *)
          expire m execution timeout now
    end
  else expire m execution timeout now.

(** [execute_workflow] from its entry; [uid] is [uuid.uuid4().hex[:8]]. *)
Definition execute_workflow (m : t) (wt : WorkflowType) (data : Payload)
    (priority : Z) (correlation_id : option string)
    (timeout_override : option Z) (uid : string) (now : datetime)
    : t * option Reply :=
  let execution :=
    mkExecution (WorkflowType_value wt +:+ "_" +:+ uid) wt PENDING data
      None None now None None None correlation_id 0 in
  let ref := length (heap m) in
  match WorkflowQueue.add_workflow (queue m) ref with
  | (false, _) =>
      (m, Some (Returned None
                  (set_failure execution FAILED "Workflow queue is full" now)))
  | (true, q) =>
      let m1 := set_queue (set_heap m (heap m ++ [execution])) q in
      poll m1 ref now (effective_timeout timeout_override) now
  end.

(** *** _process_workflow_queue *)

(** From the top of the loop to [await n8n_client.trigger_workflow]
    (or to [await asyncio.sleep(1)] when nothing can be taken). *)
Definition drain_next (m : t) : t :=
  match WorkflowQueue.get_next_workflow (queue m) with
  | (None, _) => m
  | (Some workflow, q) =>
      set_draining
        (set_queue m
           (WorkflowQueue.mark_running q (execution_id (obj m workflow))))
        (Some workflow)
  end.

(** From the return of the gateway call to the end of the loop body. *)
Definition drain_done (m : t) (workflow : addr) (outcome : GatewayOutcome)
    (now : datetime) : t :=
  let written :=
    match outcome with
    | GwResult result => copy_result (obj m workflow) result
    | GwException text => set_exception (obj m workflow) text now
    end in
  let m1 := set_heap m (<[workflow := written]> (heap m)) in
  set_draining
    (set_queue m1
       (WorkflowQueue.mark_completed (queue m1)
          (execution_id (obj m1 workflow)) workflow))
    None.

(** *** The interleavings of the event loop *)

Inductive Event :=
  | Submit (wt : WorkflowType) (data : Payload) (priority : Z)
      (correlation_id : option string) (timeout_override : option Z)
      (uid : string) (now : datetime)
  | Wake (execution : addr) (now : datetime)
  | DrainNext
  | DrainDone (outcome : GatewayOutcome) (now : datetime)
  | Cleanup (retention_days : Z) (now : datetime).

(** An event that is not enabled (waking a call that is not
    suspended, a drain step out of turn) leaves the state as it is. *)
Definition step (m : t) (ev : Event) : t * option Reply :=
  match ev with
  | Submit wt data priority correlation_id timeout_override uid now =>
      execute_workflow m wt data priority correlation_id timeout_override uid now
  | Wake execution now =>
      match waiting m !! execution with
      | Some (start_time, timeout) => poll m execution start_time timeout now
      | None => (m, None)
      end
  | DrainNext =>
      match draining m with
      | None => (drain_next m, None)
      | Some _ => (m, None)
      end
  | DrainDone outcome now =>
      match draining m with
      | Some workflow => (drain_done m workflow outcome now, None)
      | None => (m, None)
      end
  | Cleanup retention_days now =>
      (cleanup_old_executions m retention_days now, None)
  end.

Definition run_from (m : t) (evs : list Event) : t :=
  foldl (λ m ev, (step m ev).1) m evs.

Definition run (evs : list Event) : t := run_from init evs.

(** *** get_queue_status *)

Record QueueStatus := mkQueueStatus {
  queue_size : nat;
  running_count : nat;
  completed_count : nat;
  status_max_concurrent : nat;
  queue_capacity : nat
}.

Definition get_queue_status (m : t) : QueueStatus :=
  mkQueueStatus
    (WorkflowQueue.get_queue_size (queue m))
    (WorkflowQueue.get_running_count (queue m))
    (size (WorkflowQueue.completed_workflows (queue m)))
    (WorkflowQueue.max_concurrent (queue m))
    (WorkflowQueue.maxlen (queue m)).

End WorkflowManager.

(** ** execute_batch_workflows

    The batch protocol is written against what it needs from the event
    loop: the clock, the id source, [asyncio.sleep], and what driving
    [execute_workflow] coroutines to completion does to the world. *)

Inductive Exn :=
  | RuntimeError (msg : string).

Inductive Result (A : Type) :=
  | Ok (a : A)
  | Raised (e : Exn).
Arguments Ok {A} a.
Arguments Raised {A} e.

Class Runtime (World : Type) := {
  (** [datetime.now()] *)
  rt_now : World → datetime;
  (** [uuid.uuid4().hex[:8]] *)
  rt_uuid : World → string * World;
  (** [await asyncio.sleep(seconds)] *)
  rt_sleep : Qc → World → World;
  (** awaiting one fresh [execute_workflow(workflow_type, data,
      correlation_id=...)] coroutine until it returns *)
  rt_execute_workflow :
    WorkflowType → Payload → option string → World → WorkflowExecution * World;
  (** [await asyncio.gather] with [return_exceptions=True] over fresh
      [execute_workflow] coroutines *)
  rt_gather :
    list (WorkflowType * Payload * option string) → World →
    list (Result WorkflowExecution) * World
}.

(** A coroutine object made by calling [self.execute_workflow(...)]:
    its arguments, and whether it has been awaited already. *)
Record Coroutine := mkCoroutine {
  co_workflow_type : WorkflowType;
  co_data : Payload;
  co_correlation_id : option string;
  co_awaited : bool
}.

Definition already_awaited : Exn :=
  RuntimeError "cannot reuse already awaited coroutine".

Section Batch.
Context {World : Type} `{Runtime World}.

(** [await task]: a coroutine object runs once; awaiting it again
    raises [RuntimeError]. The coroutine is returned in its new state. *)
Definition await_coroutine (task : Coroutine) (w : World)
    : Result (WorkflowExecution * Coroutine) * World :=
  if co_awaited task then (Raised already_awaited, w)
  else
    let '(r, w1) :=
      rt_execute_workflow (co_workflow_type task) (co_data task)
        (co_correlation_id task) w in
    (Ok (r, mkCoroutine (co_workflow_type task) (co_data task)
              (co_correlation_id task) true), w1).

(** The payload of the [i]-th workflow of the batch. *)
Definition workflow_data (req : BatchWorkflowRequest) (batch_id : string)
    (i : nat) (wt : WorkflowType) : Payload :=
  let shared := shared_data req in
  let merged :=
    match individual_data req !! wt with
    | Some own => own ∪ shared
    | None => shared
    end in
  <["batchTotal" := VInt (Z.of_nat (length (workflows req)))]>
    (<["batchIndex" := VInt (Z.of_nat i)]>
       (<["batchId" := VStr batch_id]> merged)).

(** The first loop, from index [i] on; [execution_tasks] holds the
    coroutines made so far. In fail-fast mode the coroutine just
    appended, [execution_tasks[-1]], is awaited on the spot (the list
    is not empty there, so [fail_fast and execution_tasks] is
    [fail_fast]). *)
Fixpoint prepare_tasks (req : BatchWorkflowRequest) (batch_id : string)
    (i : nat) (kinds : list WorkflowType) (execution_tasks : list Coroutine)
    (w : World) : Result (list Coroutine) * World :=
  match kinds with
  | [] => (Ok execution_tasks, w)
  | wt :: rest =>
      let data := workflow_data req batch_id i wt in
      let w1 :=
        if (0 <? delay_between_workflows req)%Z && (0 <? i)
        then rt_sleep (Q2Qc (delay_between_workflows req # 1000)) w
        else w in
      let task := mkCoroutine wt data (Some batch_id) false in
      if fail_fast req then
        match await_coroutine task w1 with
        | (Ok (previous_result, task'), w2) =>
            if bool_decide (status previous_result = FAILED)
            then (Ok (execution_tasks ++ [task']), w2)
            else prepare_tasks req batch_id (S i) rest
                   (execution_tasks ++ [task']) w2
        | (Raised e, w2) => (Raised e, w2)
        end
      else
        prepare_tasks req batch_id (S i) rest (execution_tasks ++ [task]) w1
  end.

(** The fail-fast branch of "Execute all workflow tasks". *)
Fixpoint await_in_turn (execution_tasks : list Coroutine)
    (results : list WorkflowExecution) (w : World)
    : Result (list WorkflowExecution) * World :=
  match execution_tasks with
  | [] => (Ok results, w)
  | task :: rest =>
      match await_coroutine task w with
      | (Ok (result, _), w1) =>
          if bool_decide (status result = FAILED)
          then (Ok (results ++ [result]), w1)
          else await_in_turn rest (results ++ [result]) w1
      | (Raised e, w1) => (Raised e, w1)
      end
  end.

(** "Process results": the records, the successes, the failures. *)
Fixpoint process_results (results : list (Result WorkflowExecution))
    (execution_results : list WorkflowExecution)
    (successful_count failed_count : nat)
    : list WorkflowExecution * nat * nat :=
  match results with
  | [] => (execution_results, successful_count, failed_count)
  | Ok result :: rest =>
      process_results rest (execution_results ++ [result])
        (if bool_decide (status result = COMPLETED)
         then S successful_count else successful_count)
        (if bool_decide (status result = COMPLETED) then failed_count
         else if bool_decide (status result ∈ [FAILED; TIMEOUT])
              then S failed_count else failed_count)
  | Raised _ :: rest =>
      process_results rest execution_results successful_count (S failed_count)
  end.

Definition execute_batch_workflows (req : BatchWorkflowRequest) (w : World)
    : Result BatchWorkflowResult * World :=
  let '(batch_id, w0) :=
    if truthy_str (b_correlation_id req)
    then (default "" (b_correlation_id req), w)
    else let '(uid, w') := rt_uuid w in ("batch_" +:+ uid, w') in
  let start_time := rt_now w0 in
  match prepare_tasks req batch_id 0 (workflows req) [] w0 with
  | (Raised e, w1) => (Raised e, w1)
  | (Ok execution_tasks, w1) =>
      let '(awaited, w2) :=
        if fail_fast req then
          match await_in_turn execution_tasks [] w1 with
          | (Ok results, w2) => (Ok (Ok <$> results), w2)
          | (Raised e, w2) => (Raised e, w2)
          end
        else
          let '(results, w2) :=
            rt_gather ((λ c, (co_workflow_type c, co_data c, co_correlation_id c))
                         <$> execution_tasks) w1 in
          (Ok results, w2) in
      match awaited with
      | Raised e => (Raised e, w2)
      | Ok results =>
          let '(execution_results, successful_count, failed_count) :=
            process_results results [] 0 0 in
          let completion_time := rt_now w2 in
          (Ok (mkBatchResult batch_id (length (workflows req))
                 successful_count failed_count execution_results
                 start_time (Some completion_time)
                 (Some (total_seconds (completion_time - start_time)))),
           w2)
      end
  end.

End Batch.

(** ** One schedule of the event loop

    A world in which the batch protocol can be run: a manager, a clock,
    a counter standing for the id source and a gateway. Every
    submission is followed by one turn of the drain loop, the gateway
    answers one second later, and the suspended call wakes up then; a
    call that is still not served wakes up again when its timeout has
    passed. *)

Module Schedule.
Import WorkflowManager.

Record Loop := mkLoop {
  manager : WorkflowManager.t;
  clock : datetime;
  uuids : nat;
  gateway : WorkflowType → datetime → GatewayOutcome
}.

Definition set_manager (w : Loop) (m : WorkflowManager.t) : Loop :=
  mkLoop m (clock w) (uuids w) (gateway w).

Definition set_clock (w : Loop) (now : datetime) : Loop :=
  mkLoop (manager w) now (uuids w) (gateway w).

Definition draw_uuid (w : Loop) : string * Loop :=
  (pretty (uuids w), mkLoop (manager w) (clock w) (S (uuids w)) (gateway w)).

Definition sleep (seconds : Qc) (w : Loop) : Loop :=
  set_clock w (clock w + Qfloor (seconds * Q2Qc (inject_Z microseconds_per_second))%Qc)%Z.

(** One turn of the drain loop; the gateway answers at [now]. *)
Definition drain_turn (m : WorkflowManager.t)
    (gw : WorkflowType → datetime → GatewayOutcome) (now : datetime)
    : WorkflowManager.t :=
  let m1 := (step m DrainNext).1 in
  match draining m1 with
  | Some a =>
      (step m1 (DrainDone (gw (workflow_type (obj m1 a)) now) now)).1
  | None => m1
  end.

(** Waking the call that owns [a] at [now] and, if that does not make
    it return, once more when the default timeout has passed. *)
Definition wake_until_return (m : WorkflowManager.t) (a : addr)
    (now : datetime) : WorkflowExecution * WorkflowManager.t :=
  match step m (Wake a now) with
  | (m1, Some (Returned _ r)) => (r, m1)
  | (m1, None) =>
      match step m1 (Wake a (now + default_timeout * microseconds_per_second)%Z) with
      | (m2, Some (Returned _ r)) => (r, m2)
      | (m2, None) => (obj m2 a, m2)
      end
  end.

Definition one_second : Z := microseconds_per_second.

Definition run_execute_workflow (wt : WorkflowType) (data : Payload)
    (correlation_id : option string) (w : Loop) : WorkflowExecution * Loop :=
  let '(uid, w1) := draw_uuid w in
  let a := length (heap (manager w1)) in
  match step (manager w1) (Submit wt data 5 correlation_id None uid (clock w1)) with
  | (m1, Some (Returned _ r)) => (r, set_manager w1 m1)
  | (m1, None) =>
      let now := (clock w1 + one_second)%Z in
      let '(r, m2) := wake_until_return (drain_turn m1 (gateway w1) now) a now in
      (r, set_clock (set_manager w1 m2) now)
  end.

(** [gather]: all submissions first, then the drain loop serves them
    one by one, then the callers wake up in turn. *)
Fixpoint submit_all (args : list (WorkflowType * Payload * option string))
    (w : Loop) : list (WorkflowExecution + addr) * Loop :=
  match args with
  | [] => ([], w)
  | (wt, data, correlation_id) :: rest =>
      let '(uid, w1) := draw_uuid w in
      let a := length (heap (manager w1)) in
      let '(m1, reply) :=
        step (manager w1) (Submit wt data 5 correlation_id None uid (clock w1)) in
      let '(out, w2) := submit_all rest (set_manager w1 m1) in
      (match reply with
       | Some (Returned _ r) => inl r
       | None => inr a
       end :: out, w2)
  end.

Fixpoint collect_all (pending : list (WorkflowExecution + addr))
    (m : WorkflowManager.t) (now : datetime)
    : list (Result WorkflowExecution) * WorkflowManager.t :=
  match pending with
  | [] => ([], m)
  | inl r :: rest =>
      let '(out, m1) := collect_all rest m now in (Ok r :: out, m1)
  | inr a :: rest =>
      let '(r, m1) := wake_until_return m a now in
      let '(out, m2) := collect_all rest m1 now in (Ok r :: out, m2)
  end.

Definition run_gather (args : list (WorkflowType * Payload * option string))
    (w : Loop) : list (Result WorkflowExecution) * Loop :=
  let '(pending, w1) := submit_all args w in
  let now := (clock w1 + one_second)%Z in
  let m1 :=
    foldr (λ _ m, drain_turn m (gateway w1) now) (manager w1) pending in
  let '(results, m2) := collect_all pending m1 now in
  (results, set_clock (set_manager w1 m2) now).

#[global] Instance loop_runtime : Runtime Loop := {
  rt_now := clock;
  rt_uuid := draw_uuid;
  rt_sleep := sleep;
  rt_execute_workflow := run_execute_workflow;
  rt_gather := run_gather
}.

(** A gateway answer as [n8n_client.trigger_workflow] builds it from
    the HTTP status of the webhook call. *)
Definition webhook_answer (http_status : Z) (wt : WorkflowType)
    (now : datetime) : GatewayOutcome :=
  let eid := WorkflowType_value wt +:+ "_" +:+ pretty now in
  if (http_status =? 200)%Z then
    GwResult (mkExecution eid wt COMPLETED ∅ (Some ∅) None (now - one_second)
                (Some now) (Some (total_seconds one_second)) None None 0)
  else
    GwResult (mkExecution eid wt FAILED ∅ None
                (Some ("HTTP " +:+ pretty http_status +:+ ": "))
                (now - one_second) (Some now) None None None 0).

Definition start (gw : WorkflowType → datetime → GatewayOutcome) : Loop :=
  mkLoop WorkflowManager.init 0 0 gw.

End Schedule.

(** ** server.py: the [execute_batch_workflows] tool *)

Module Server.

(** [WorkflowType(workflow_str)]: the member with that value; [None]
    stands for the [ValueError] of a string that is no member's value. *)
Definition WorkflowType_of_value (s : string) : option WorkflowType :=
  if decide (s = "customer-analysis") then Some CUSTOMER_ANALYSIS
  else if decide (s = "follow-up-sequences") then Some FOLLOW_UP_SEQUENCES
  else if decide (s = "crm-lead-management") then Some CRM_LEAD_MANAGEMENT
  else if decide (s = "photo-analysis-processing")
       then Some PHOTO_ANALYSIS_PROCESSING
  else None.

(** "Convert individual_data keys to WorkflowType enum": the keys that
    name no workflow type are skipped. *)
Definition convert_individual_data (individual_data : gmap string Payload)
    : gmap WorkflowType Payload :=
  map_fold
    (λ workflow_str data individual_data_typed,
       match WorkflowType_of_value workflow_str with
       | Some workflow_type => <[workflow_type := data]> individual_data_typed
       | None => individual_data_typed
       end)
    ∅ individual_data.

Definition not_initialized : Exn :=
  RuntimeError "Workflow manager not initialized".

(** The tool; [workflow_manager] is [None] before [initialize]. *)
Definition execute_batch_workflows {World : Type} `{Runtime World}
    (workflow_manager : option World)
    (workflows : list WorkflowType) (shared_data : Payload)
    (individual_data : gmap string Payload) (delay_between_workflows : Z)
    (fail_fast : bool) (correlation_id : option string)
    : Result BatchWorkflowResult * option World :=
  match workflow_manager with
  | None => (Raised not_initialized, None)
  | Some w =>
      let batch_request :=
        mkBatchRequest workflows shared_data
          (convert_individual_data individual_data)
          delay_between_workflows fail_fast correlation_id in
      let '(result, w') := execute_batch_workflows batch_request w in
      (result, Some w')
  end.

End Server.

(** * Properties *)

Import WorkflowManager.

(** ** Predicates of the statements *)

(** [get_running_count() <= max_concurrent] *)
Definition within_concurrency (m : t) : Prop :=
  WorkflowQueue.get_running_count (queue m) ≤ WorkflowQueue.max_concurrent (queue m).

(** The calls the drain loop and the submissions make on the queue,
    in any order and for any number of drain workers: a worker takes the
    next workflow and marks an id as running only if it got one. *)
Inductive QueueCall :=
  | Take (execution_id : string)
  | Finish (execution_id : string) (execution : addr)
  | Admit (execution : addr).

Definition queue_call (q : WorkflowQueue.t) (c : QueueCall) : WorkflowQueue.t :=
  match c with
  | Take execution_id =>
      match WorkflowQueue.get_next_workflow q with
      | (Some _, q') => WorkflowQueue.mark_running q' execution_id
      | (None, q') => q'
      end
  | Finish execution_id execution =>
      WorkflowQueue.mark_completed q execution_id execution
  | Admit execution => (WorkflowQueue.add_workflow q execution).2
  end.

(** [get_queue_size() <= maxlen] *)
Definition within_capacity (m : t) : Prop :=
  WorkflowQueue.get_queue_size (queue m) ≤ WorkflowQueue.maxlen (queue m).

(** [needle in hay] on strings *)
Definition contains (needle hay : string) : Prop :=
  ∃ pre post, hay = pre +:+ needle +:+ post.

(** The largest key in a list, [max(key(x) for x in l)] *)
Definition key_max {A} (key : A → Z) (l : list A) : option Z :=
  foldr (λ x acc, Some (from_option (Z.max (key x)) (key x) acc)) None l.

(** Descending by key *)
Definition newest_first {A} (key : A → Z) : relation A :=
  λ x y, (key y ≤ key x)%Z.

(** The submission time behind a reference *)
Definition submitted (m : t) (a : addr) : Z := started_at (obj m a).

(** What [_update_metrics] keeps of a history, and what it drops. *)
Definition kept {A} (key : A → Z) (l : list A) : list A :=
  if max_executions_per_type <? length l
  then take max_executions_per_type (sorted_reverse key l)
  else l.

Definition evicted {A} (key : A → Z) (l : list A) : list A :=
  if max_executions_per_type <? length l
  then drop max_executions_per_type (sorted_reverse key l)
  else [].

(** [for e in executions: _update_metrics(e)] *)
Definition record_all (m : t) (executions : list addr) : t :=
  foldl _update_metrics m executions.

(** Every history is within [max_executions_per_type]. *)
Definition within_retention (m : t) : Prop :=
  ∀ k, length (ledger m k) ≤ max_executions_per_type.

(** The record [execute_workflow] hands back when the queue is full. *)
Definition rejected (wt : WorkflowType) (data : Payload)
    (correlation_id : option string) (uid : string) (now : datetime)
    : WorkflowExecution :=
  mkExecution (WorkflowType_value wt +:+ "_" +:+ uid) wt FAILED data None
    (Some "Workflow queue is full") now (Some now) None None correlation_id 0.

(** The mean of the durations of the completed executions whose
    duration is known, [0.0] when there is none. *)
Definition known_completed_durations (l : list WorkflowExecution) : list Qc :=
  omap (λ e, if bool_decide (status e = COMPLETED)
             then duration_seconds e else None) l.

Definition mean (l : list Qc) : Qc :=
  match l with
  | [] => 0%Qc
  | _ => (sum_Qc l / Qc_of_nat (length l))%Qc
  end.

(** [cutoff_date] of [cleanup_old_executions] *)
Definition cutoff (retention_days : Z) (now : datetime) : Z :=
  (now - timedelta_days retention_days)%Z.

(** [COMPLETED], [FAILED], [TIMEOUT] and [CANCELLED] end an execution. *)
Definition is_terminal (s : WorkflowStatus) : bool :=
  match s with
  | PENDING | RUNNING => false
  | COMPLETED | FAILED | CANCELLED | TIMEOUT => true
  end.

(** No step changes an object that is in a terminal state. *)
Definition terminal_records_are_final : Prop :=
  ∀ (evs : list Event) (ev : Event) (a : addr) (r : WorkflowExecution),
    heap (run evs) !! a = Some r →
    is_terminal (status r) = true →
    heap (step (run evs) ev).1 !! a = Some r.

(** The object behind [a] is neither queued nor with the gateway, and
    the [execute_workflow] call that made it has returned. *)
Definition settled (m : t) (a : addr) : Prop :=
  a < length (heap m)
  ∧ (a ∉ WorkflowQueue.queue (queue m))
  ∧ draining m ≠ Some a
  ∧ waiting m !! a = None.

(** ** Scenarios *)

(** A manager whose queue holds one record and serves one at a time. *)
Definition tiny : t :=
  mk (WorkflowQueue.mk [] 1 ∅ ∅ 1) ∅ ∅ [] None ∅.

(** [tiny] after one submission: the queue is full. *)
Definition busy : t :=
  run_from tiny [Submit CUSTOMER_ANALYSIS ∅ 5 None (Some 2%Z) "a1b2c3d4" 0%Z].

Definition sample (st : WorkflowStatus) (duration : option Qc)
    (started : datetime) : WorkflowExecution :=
  mkExecution "customer-analysis_00000000" CUSTOMER_ANALYSIS st ∅ None None
    started None duration None None 0.

(** A manager that has recorded the objects of [h], all of type
    [CUSTOMER_ANALYSIS], in this order. *)
Definition recorded (h : list WorkflowExecution) : t :=
  record_all (set_heap init h) (seq 0 (length h)).

(** Two completed executions of 1.0 s and 2.0 s, one failed. *)
Definition sample_history : list WorkflowExecution :=
  [sample COMPLETED (Some (Q2Qc 1)) 10; sample COMPLETED (Some (Q2Qc 2)) 20;
   sample FAILED None 30].

(** Two completed executions, of 0.0 s and of 2.0 s. *)
Definition instant_history : list WorkflowExecution :=
  [sample COMPLETED (Some (Q2Qc 0)) 10; sample COMPLETED (Some (Q2Qc 2)) 20].

(** Three executions half an hour before [noon]; a trigger limited to
    two per hour. *)
Definition noon : datetime := timedelta_hours 12.

Definition half_past_eleven : datetime := (noon - timedelta_hours 1 / 2)%Z.

Definition throttled : t :=
  recorded [sample COMPLETED None half_past_eleven;
            sample COMPLETED None half_past_eleven;
            sample COMPLETED None half_past_eleven].

Definition rate_limited_trigger : WorkflowTriggerConfig :=
  mkTrigger "rate_limited_trigger" CUSTOMER_ANALYSIS ∅ None true 2 ∅.

(** One execution, submitted at time 0, served by the gateway after
    one second and returned to its caller. *)
Definition served_id : string := "customer-analysis_a1b2c3d4".

Definition served : t :=
  run [Submit CUSTOMER_ANALYSIS ∅ 5 None None "a1b2c3d4" 0%Z;
       DrainNext;
       DrainDone (Schedule.webhook_answer 200 CUSTOMER_ANALYSIS 1000000) 1000000%Z;
       Wake 0 1000000%Z].

Definition one_week : datetime := timedelta_days 7.

(** A submission with a timeout of two seconds whose gateway call
    takes three: the caller finds its execution running after 0.5 s and
    after 1.5 s, and gives up at 2.5 s, before the answer arrives. *)
Definition slow_gateway : list Event :=
  [Submit CUSTOMER_ANALYSIS ∅ 5 None (Some 2%Z) "a1b2c3d4" 0%Z;
   DrainNext;
   Wake 0 500000%Z;
   Wake 0 1500000%Z;
   Wake 0 2500000%Z].

Definition late_answer : Event :=
  DrainDone (Schedule.webhook_answer 200 CUSTOMER_ANALYSIS 3000000) 3000000%Z.

(** A gateway that fails the customer analysis and serves the rest. *)
Definition failing_first (wt : WorkflowType) (now : datetime) : GatewayOutcome :=
  Schedule.webhook_answer
    (if bool_decide (wt = CUSTOMER_ANALYSIS) then 500 else 200) wt now.

(** kinds [[A; B; C]] with [fail_fast] *)
Definition fail_fast_batch : BatchWorkflowRequest :=
  mkBatchRequest [CUSTOMER_ANALYSIS; FOLLOW_UP_SEQUENCES; CRM_LEAD_MANAGEMENT]
    ∅ ∅ 0 true None.

(** one kind with [fail_fast], served by a gateway that succeeds *)
Definition single_batch : BatchWorkflowRequest :=
  mkBatchRequest [CUSTOMER_ANALYSIS] ∅ ∅ 0 true None.

(** An event loop whose manager has no slot to run anything, so that
    every submission times out. *)
Definition stalled : Schedule.Loop :=
  Schedule.mkLoop (mk (WorkflowQueue.mk [] 1000 ∅ ∅ 0) ∅ ∅ [] None ∅) 0 0
    (Schedule.webhook_answer 200).

(** A manager holding 1005 executions submitted at times 0 to 1004,
    none of them recorded yet. *)
Definition crowd : t :=
  set_heap init ((λ i, sample COMPLETED None (Z.of_nat i)) <$> seq 0 1005).

(** What happens around [busy] in the examples below. *)
Definition rush : list Event :=
  [DrainNext;
   Submit FOLLOW_UP_SEQUENCES ∅ 5 None None "0badcafe" 500000%Z;
   Submit CRM_LEAD_MANAGEMENT ∅ 5 None None "0defaced" 600000%Z;
   DrainNext;
   DrainDone (Schedule.webhook_answer 200 CUSTOMER_ANALYSIS 1000000) 1000000%Z;
   Wake 0 1000000%Z;
   DrainNext].

(** The state in which the late answer of [slow_gateway] has arrived,
    and what may follow. *)
Definition answered : t := (step (run slow_gateway) late_answer).1.

Definition aftermath : list Event :=
  [Wake 0 4000000%Z;
   Submit CUSTOMER_ANALYSIS ∅ 5 None None "0badcafe" 5000000%Z;
   DrainNext;
   DrainDone (GwException "connection reset") 6000000%Z;
   Cleanup 0 7000000%Z].

(** ** Further predicates *)

(** The fields of an execution that say which execution it is. *)
Definition same_identity (r r' : WorkflowExecution) : Prop :=
  execution_id r' = execution_id r
  ∧ workflow_type r' = workflow_type r
  ∧ input_data r' = input_data r
  ∧ started_at r' = started_at r
  ∧ correlation_id r' = correlation_id r
  ∧ retry_count r' = retry_count r.

(** The queue holds valid references in the order of their creation,
    the drain loop holds a valid reference, and the running set is the
    id of the execution the drain loop is busy with. *)
Definition well_formed (m : t) : Prop :=
  StronglySorted lt (WorkflowQueue.queue (queue m))
  ∧ Forall (λ a, a < length (heap m)) (WorkflowQueue.queue (queue m))
  ∧ (∀ w, draining m = Some w → w < length (heap m))
  ∧ WorkflowQueue.running_workflows (queue m)
    = match draining m with
      | Some w => {[execution_id (obj m w)]}
      | None => ∅
      end.

(** ** Further scenarios *)

(** Three submissions in a row on a fresh manager. *)
Definition three_submissions : list Event :=
  [Submit CRM_LEAD_MANAGEMENT ∅ 1 None None "00000001" 0%Z;
   Submit CUSTOMER_ANALYSIS ∅ 10 None None "00000002" 1000%Z;
   Submit FOLLOW_UP_SEQUENCES ∅ 5 None None "00000003" 2000%Z].

(** A manager whose customer-analysis history is full: the executions
    1 to 1000 of [crowd], submitted at times 1 to 1000, are recorded;
    the executions 0 and 1001 to 1004 are not. *)
Definition full_house : t := record_all crowd (seq 1 1000).

(** A second trigger with the name of [rate_limited_trigger]. *)
Definition replacement_trigger : WorkflowTriggerConfig :=
  mkTrigger "rate_limited_trigger" CRM_LEAD_MANAGEMENT ∅ None false 60 ∅.

(** Individual data as the tool receives it: one entry under the value
    of a workflow type, one under a string that names none. *)
Definition mixed_individual_data : gmap string Payload :=
  {[ "customer-analysis" := {[ "analysisType" := VStr "photo" ]};
     "customer_analysis" := {[ "analysisType" := VStr "text" ]} ]}.

(** ** Further predicates of the batch protocol *)

(** The record of a result of a [gather], if it is one. *)
Definition record_of (r : Result WorkflowExecution) : option WorkflowExecution :=
  match r with
  | Ok e => Some e
  | Raised _ => None
  end.

(** The records among the results of a [gather]. *)
Definition returned_records (results : list (Result WorkflowExecution))
    : list WorkflowExecution :=
  omap record_of results.

(** How many results of a [gather] are exceptions. *)
Definition raised_count (results : list (Result WorkflowExecution)) : nat :=
  length (filter (λ r, record_of r = None) results).

Definition completed_count_of (l : list WorkflowExecution) : nat :=
  length (filter (λ e, status e = COMPLETED) l).

Definition failed_count_of (l : list WorkflowExecution) : nat :=
  length (filter (λ e, status e ∈ [FAILED; TIMEOUT]) l).

(** [PENDING], [RUNNING] and [CANCELLED] records. *)
Definition uncounted_count_of (l : list WorkflowExecution) : nat :=
  length (filter (λ e, status e ∈ [PENDING; RUNNING; CANCELLED]) l).

(** The coroutines the first loop makes for [kinds], from index [i]
    on, none of them awaited. *)
Fixpoint fresh_tasks (req : BatchWorkflowRequest) (batch_id : string)
    (i : nat) (kinds : list WorkflowType) : list Coroutine :=
  match kinds with
  | [] => []
  | wt :: rest =>
      mkCoroutine wt (workflow_data req batch_id i wt) (Some batch_id) false
      :: fresh_tasks req batch_id (S i) rest
  end.

(** The number of pauses of the first loop over [kinds] from index
    [i] on: one before every workflow but the one of index 0, if the
    delay is positive. *)
Definition pauses (req : BatchWorkflowRequest) (i : nat)
    (kinds : list WorkflowType) : nat :=
  if (0 <? delay_between_workflows req)%Z
  then (if 0 <? i then length kinds else length kinds - 1)
  else 0.

(** A batch in parallel mode with a delay of 250 ms and data of its
    own for one type; the shared data try to set the batch id. *)
Definition parallel_batch : BatchWorkflowRequest :=
  mkBatchRequest [CUSTOMER_ANALYSIS; FOLLOW_UP_SEQUENCES; CRM_LEAD_MANAGEMENT]
    {[ "source" := VStr "batch"; "batchId" := VStr "mine" ]}
    {[ FOLLOW_UP_SEQUENCES := {[ "source" := VStr "follow-up" ]} ]}
    250 false (Some "nightly").

(** An empty batch with [fail_fast]. *)
Definition empty_batch : BatchWorkflowRequest :=
  mkBatchRequest [] ∅ ∅ 0 true None.

(** The batch id of a request and the world after it is drawn: the
    correlation id if there is one, a fresh id otherwise. *)
Definition batch_identity {World : Type} `{Runtime World}
    (req : BatchWorkflowRequest) (w : World) : string * World :=
  if truthy_str (b_correlation_id req)
  then (default "" (b_correlation_id req), w)
  else let '(uid, w') := rt_uuid w in ("batch_" +:+ uid, w').

(** The world when the first loop of a batch in parallel mode is over:
    only the pauses have happened. *)
Definition after_pauses {World : Type} `{Runtime World}
    (req : BatchWorkflowRequest) (w : World) : World :=
  Nat.iter (pauses req 0 (workflows req))
    (rt_sleep (Q2Qc (delay_between_workflows req # 1000)))
    (batch_identity req w).2.

(** What [asyncio.gather] is called with in parallel mode, and what it
    gives. *)
Definition gathered {World : Type} `{Runtime World}
    (req : BatchWorkflowRequest) (w : World)
    : list (Result WorkflowExecution) * World :=
  rt_gather
    ((λ c, (co_workflow_type c, co_data c, co_correlation_id c))
       <$> fresh_tasks req (batch_identity req w).1 0 (workflows req))
    (after_pauses req w).

(** ** Further scenarios of the polling loop *)

(** The execution of [served] when the gateway has answered and its
    caller has not looked yet. *)
Definition unread : t :=
  run [Submit CUSTOMER_ANALYSIS ∅ 5 None None "a1b2c3d4" 0%Z;
       DrainNext;
       DrainDone (Schedule.webhook_answer 200 CUSTOMER_ANALYSIS 1000000) 1000000%Z].

(** The execution of [served] handed to the gateway, which has not
    answered yet. *)
Definition in_flight : t :=
  run [Submit CUSTOMER_ANALYSIS ∅ 5 None None "a1b2c3d4" 0%Z; DrainNext].

(** The execution [execute_workflow] creates. *)
Definition created (wt : WorkflowType) (data : Payload)
    (cid : option string) (uid : string) (now : datetime) : WorkflowExecution :=
  mkExecution (WorkflowType_value wt +:+ "_" +:+ uid) wt PENDING data
    None None now None None None cid 0.

(** The manager when [add_workflow] has taken the execution [e], the
    next object of the heap. *)
Definition enqueued (m : t) (e : WorkflowExecution) : t :=
  set_queue (set_heap m (heap m ++ [e]))
    (WorkflowQueue.set_queue (queue m)
       (WorkflowQueue.queue (queue m) ++ [length (heap m)])).

(** [served] followed by a submission that draws the same id. *)
Definition same_id_again : Event :=
  Submit CUSTOMER_ANALYSIS {[ "customerName" := VStr "Deniz" ]} 5 None None
    "a1b2c3d4" 5000000%Z.

(** ** What each operation leaves alone *)

Lemma update_metrics_frame m a :
  queue (_update_metrics m a) = queue m
  ∧ heap (_update_metrics m a) = heap m
  ∧ draining (_update_metrics m a) = draining m
  ∧ waiting (_update_metrics m a) = waiting m.
Proof. done. Qed.

Lemma expire_frame m a timeout now :
  queue (expire m a timeout now).1 = queue m
  ∧ draining (expire m a timeout now).1 = draining m.
Proof. done. Qed.

Lemma poll_frame m a start_time timeout now :
  queue (poll m a start_time timeout now).1 = queue m
  ∧ draining (poll m a start_time timeout now).1 = draining m.
Proof. unfold poll. repeat case_match; done. Qed.

(** Replaces the queue and the drain state after a [poll] in the goal
    by those before it. *)
Ltac poll_frame :=
  match goal with
  | |- context [poll ?m1 ?a ?s ?t ?n] =>
      let Hq := fresh in
      let Hd := fresh in
      destruct (poll_frame m1 a s t n) as [Hq Hd];
      rewrite ?Hq, ?Hd; clear Hq Hd
  end.

(** A submission touches the deque only. *)
Lemma execute_workflow_frame m wt data priority cid tmo uid now :
  let m' := (execute_workflow m wt data priority cid tmo uid now).1 in
  WorkflowQueue.running_workflows (queue m') = WorkflowQueue.running_workflows (queue m)
  ∧ WorkflowQueue.completed_workflows (queue m') = WorkflowQueue.completed_workflows (queue m)
  ∧ WorkflowQueue.max_concurrent (queue m') = WorkflowQueue.max_concurrent (queue m)
  ∧ WorkflowQueue.maxlen (queue m') = WorkflowQueue.maxlen (queue m)
  ∧ draining m' = draining m.
Proof.
  unfold execute_workflow, WorkflowQueue.add_workflow.
  destruct (_ <=? _); simpl; [done|].
  poll_frame. done.
Qed.

(** ** The concurrency cap *)

Lemma size_mark_completed (X : gset string) (x : string) :
  size (X ∖ {[x]}) ≤ size X.
Proof. by apply subseteq_size, subseteq_difference_l. Qed.

Lemma size_mark_running (X : gset string) (x : string) :
  size ({[x]} ∪ X) ≤ S (size X).
Proof.
  rewrite size_union_alt, size_singleton.
  pose proof (size_mark_completed X x). lia.
Qed.

Lemma drain_next_within_concurrency m :
  within_concurrency m → within_concurrency (drain_next m).
Proof.
  unfold within_concurrency, drain_next, WorkflowQueue.get_next_workflow,
    WorkflowQueue.get_running_count.
  intros Hm. destruct (_ <=? _) eqn:Hslot; [done|].
  apply Nat.leb_gt in Hslot.
  destruct (WorkflowQueue.queue (queue m)) as [|w rest]; [done|]. simpl.
  pose proof (size_mark_running (WorkflowQueue.running_workflows (queue m))
                (execution_id (obj m w))). lia.
Qed.

Lemma drain_done_within_concurrency m w outcome now :
  within_concurrency m → within_concurrency (drain_done m w outcome now).
Proof.
  unfold within_concurrency, drain_done, WorkflowQueue.get_running_count.
  simpl. intros Hm.
  etrans; [apply size_mark_completed|done].
Qed.

Lemma step_within_concurrency m ev :
  within_concurrency m → within_concurrency (step m ev).1.
Proof.
  intros Hm. destruct ev as [wt data pr cid tmo uid now|a now| |outcome now|days now];
    simpl.
  - unfold within_concurrency, WorkflowQueue.get_running_count in *.
    destruct (execute_workflow_frame m wt data pr cid tmo uid now)
      as (-> & _ & -> & _). done.
  - destruct (waiting m !! a) as [[s t]|]; [|done].
    unfold within_concurrency in *.
    by destruct (poll_frame m a s t now) as [-> _].
  - destruct (draining m); [done|]. by apply drain_next_within_concurrency.
  - destruct (draining m); [|done]. by apply drain_done_within_concurrency.
  - done.
Qed.

Lemma run_from_snoc m evs ev :
  run_from m (evs ++ [ev]) = (step (run_from m evs) ev).1.
Proof. unfold run_from. by rewrite foldl_app. Qed.

Lemma run_from_within_concurrency m evs :
  within_concurrency m → within_concurrency (run_from m evs).
Proof.
  intros Hm. induction evs as [|ev evs IH] using rev_ind; [done|].
  rewrite run_from_snoc. by apply step_within_concurrency.
Qed.

Lemma queue_call_within_concurrency q c :
  WorkflowQueue.get_running_count q ≤ WorkflowQueue.max_concurrent q →
  WorkflowQueue.get_running_count (queue_call q c)
  ≤ WorkflowQueue.max_concurrent (queue_call q c).
Proof.
  unfold WorkflowQueue.get_running_count. intros Hq.
  destruct c as [id|id a|a]; simpl.
  - unfold WorkflowQueue.get_next_workflow.
    destruct (_ <=? _) eqn:Hslot; [done|]. apply Nat.leb_gt in Hslot.
    destruct (WorkflowQueue.queue q); [done|]. simpl.
    pose proof (size_mark_running (WorkflowQueue.running_workflows q) id). lia.
  - etrans; [apply size_mark_completed|done].
  - unfold WorkflowQueue.add_workflow. by destruct (_ <=? _).
Qed.

Lemma queue_calls_within_concurrency q calls :
  WorkflowQueue.get_running_count q ≤ WorkflowQueue.max_concurrent q →
  WorkflowQueue.get_running_count (foldl queue_call q calls)
  ≤ WorkflowQueue.max_concurrent (foldl queue_call q calls).
Proof.
  revert q. induction calls as [|c calls IH]; intros q Hq; [done|].
  simpl. by apply IH, queue_call_within_concurrency.
Qed.

(** C4. [get_next_workflow] hands out and removes the head of the deque
    only while fewer than [max_concurrent] ids are running, and returns
    nothing, changing nothing, otherwise; hence from a state within the
    cap every interleaving of submissions, wake-ups, drain steps and
    clean-ups stays within it, so does every state reachable from
    [init], and so does the queue under any sequence of takes (dequeue
    and mark running), completions and admissions. *)
Theorem get_next_workflow_keeps_concurrency_cap
    (q : WorkflowQueue.t) (m : t) (evs : list Event) (calls : list QueueCall) :
  within_concurrency m →
  match WorkflowQueue.get_next_workflow q with
  | (Some w, q') =>
      size (WorkflowQueue.running_workflows q) < WorkflowQueue.max_concurrent q
      ∧ WorkflowQueue.queue q = w :: WorkflowQueue.queue q'
      ∧ q' = WorkflowQueue.set_queue q (tail (WorkflowQueue.queue q))
  | (None, q') =>
      q' = q
      ∧ (WorkflowQueue.max_concurrent q ≤ size (WorkflowQueue.running_workflows q)
         ∨ WorkflowQueue.queue q = [])
  end
  ∧ (WorkflowQueue.max_concurrent q ≤ size (WorkflowQueue.running_workflows q) →
     WorkflowQueue.get_next_workflow q = (None, q))
  ∧ within_concurrency (run_from m evs)
  ∧ within_concurrency (run evs)
  ∧ WorkflowQueue.get_running_count (foldl queue_call (queue m) calls)
    ≤ WorkflowQueue.max_concurrent (foldl queue_call (queue m) calls).
Proof.
  intros Hm. split_and!; [| | | |by apply queue_calls_within_concurrency].
  - unfold WorkflowQueue.get_next_workflow.
    destruct (_ <=? _) eqn:Hslot.
    + apply Nat.leb_le in Hslot. auto.
    + apply Nat.leb_gt in Hslot.
      destruct (WorkflowQueue.queue q) as [|w rest]; [auto|]. done.
  - intros Hfull%Nat.leb_le. unfold WorkflowQueue.get_next_workflow.
    by rewrite Hfull.
  - by apply run_from_within_concurrency.
  - apply run_from_within_concurrency.
    unfold within_concurrency. vm_compute. lia.
Qed.

(** ** The capacity of the queue *)

Lemma add_workflow_full q a :
  WorkflowQueue.maxlen q ≤ length (WorkflowQueue.queue q) →
  WorkflowQueue.add_workflow q a = (false, q).
Proof.
  intros Hfull%Nat.leb_le. unfold WorkflowQueue.add_workflow. by rewrite Hfull.
Qed.

Lemma add_workflow_free q a :
  length (WorkflowQueue.queue q) < WorkflowQueue.maxlen q →
  WorkflowQueue.add_workflow q a
  = (true, WorkflowQueue.set_queue q (WorkflowQueue.queue q ++ [a])).
Proof.
  intros Hfree%Nat.leb_gt. unfold WorkflowQueue.add_workflow. by rewrite Hfree.
Qed.

Lemma execute_workflow_rejected m wt data priority cid tmo uid now :
  WorkflowQueue.maxlen (queue m) ≤ length (WorkflowQueue.queue (queue m)) →
  execute_workflow m wt data priority cid tmo uid now
  = (m, Some (Returned None (rejected wt data cid uid now))).
Proof.
  intros Hfull. unfold execute_workflow. by rewrite add_workflow_full.
Qed.

Lemma step_within_capacity m ev :
  within_capacity m → within_capacity (step m ev).1.
Proof.
  unfold within_capacity, WorkflowQueue.get_queue_size. intros Hm.
  destruct ev as [wt data pr cid tmo uid now|a now| |outcome now|days now];
    simpl.
  - unfold execute_workflow, WorkflowQueue.add_workflow.
    destruct (_ <=? _) eqn:Hfull; simpl; [done|].
    apply Nat.leb_gt in Hfull.
    poll_frame. simpl. rewrite length_app. simpl. lia.
  - destruct (waiting m !! a) as [[s t]|]; [|done].
    by destruct (poll_frame m a s t now) as [-> _].
  - destruct (draining m); [done|].
    unfold drain_next, WorkflowQueue.get_next_workflow.
    destruct (_ <=? _); [done|].
    destruct (WorkflowQueue.queue (queue m)) as [|w rest] eqn:Hq; simpl.
    + rewrite Hq. simpl. lia.
    + simpl in Hm. lia.
  - by destruct (draining m).
  - done.
Qed.

Lemma run_from_within_capacity m evs :
  within_capacity m → within_capacity (run_from m evs).
Proof.
  intros Hm. induction evs as [|ev evs IH] using rev_ind; [done|].
  rewrite run_from_snoc. by apply step_within_capacity.
Qed.

(** C5. On a queue that holds [maxlen] records [add_workflow] returns
    [False] and changes nothing, and [execute_workflow] returns at once,
    without suspending, a [FAILED] record whose message says that the
    queue is full; below [maxlen] the record is appended; and the length
    of the queue never exceeds [maxlen]. *)
Theorem full_queue_rejects_at_once
    (m free m0 : t) (a : addr) (evs : list Event)
    wt data priority cid tmo uid now :
  WorkflowQueue.maxlen (queue m) ≤ length (WorkflowQueue.queue (queue m)) →
  length (WorkflowQueue.queue (queue free)) < WorkflowQueue.maxlen (queue free) →
  within_capacity m0 →
  WorkflowQueue.add_workflow (queue m) a = (false, queue m)
  ∧ (∃ r, execute_workflow m wt data priority cid tmo uid now
          = (m, Some (Returned None r))
          ∧ status r = FAILED
          ∧ error_message r = Some "Workflow queue is full"
          ∧ contains "queue is full" (default "" (error_message r))
          ∧ completed_at r = Some now)
  ∧ WorkflowQueue.add_workflow (queue free) a
    = (true, WorkflowQueue.set_queue (queue free)
               (WorkflowQueue.queue (queue free) ++ [a]))
  ∧ WorkflowQueue.queue
      (queue (execute_workflow free wt data priority cid tmo uid now).1)
    = WorkflowQueue.queue (queue free) ++ [length (heap free)]
  ∧ within_capacity (run_from m0 evs)
  ∧ within_capacity (run evs).
Proof.
  intros Hfull Hfree Hm0. split_and!.
  - by apply add_workflow_full.
  - exists (rejected wt data cid uid now). split_and!; try done.
    + by apply execute_workflow_rejected.
    + by exists "Workflow ", "".
  - by apply add_workflow_free.
  - unfold execute_workflow. rewrite add_workflow_free by done.
    poll_frame. done.
  - by apply run_from_within_capacity.
  - apply run_from_within_capacity.
    unfold within_capacity, WorkflowQueue.get_queue_size. simpl. lia.
Qed.

(** C10. A submission rejected at a full queue leaves the manager as
    it was: no reference is added to the metrics store, so the history
    of every workflow type, its metrics and the count of executions of
    the last hour that the trigger rate limit reads are what they were
    before. *)
Theorem rejected_submission_not_recorded
    (m : t) wt data priority cid tmo uid now :
  WorkflowQueue.maxlen (queue m) ≤ length (WorkflowQueue.queue (queue m)) →
  let m' := (execute_workflow m wt data priority cid tmo uid now).1 in
  (∃ r, (execute_workflow m wt data priority cid tmo uid now).2
        = Some (Returned None r) ∧ status r = FAILED)
  ∧ metrics_store m' = metrics_store m
  ∧ heap m' = heap m
  ∧ (∀ k, ledger m' k = ledger m k)
  ∧ (∀ k, get_workflow_metrics m' k = get_workflow_metrics m k)
  ∧ (∀ c t, recent_executions m' c t = recent_executions m c t)
  ∧ (∀ c t, _should_trigger_workflow m' c t = _should_trigger_workflow m c t).
Proof.
  intros Hfull. rewrite execute_workflow_rejected by done. simpl.
  split_and!; try done. by eexists.
Qed.

(** ** The bound of the metrics store *)

Section sorted_reverse.
Context {A : Type} (key : A → Z).

Lemma insert_reverse_Permutation x l :
  insert_reverse key x l ≡ₚ x :: l.
Proof.
  induction l as [|y l IH]; simpl; [done|].
  destruct (key x <? key y)%Z; [|done].
  rewrite IH. apply perm_swap.
Qed.

Lemma sorted_reverse_Permutation l : sorted_reverse key l ≡ₚ l.
Proof.
  induction l as [|x l IH]; simpl; [done|].
  by rewrite insert_reverse_Permutation, IH.
Qed.

Lemma sorted_reverse_length l : length (sorted_reverse key l) = length l.
Proof. by rewrite sorted_reverse_Permutation. Qed.

Lemma insert_reverse_sorted x l :
  StronglySorted (newest_first key) l →
  StronglySorted (newest_first key) (insert_reverse key x l).
Proof.
  induction 1 as [|y l Hl IH Hy]; simpl.
  - repeat constructor.
  - destruct (key x <? key y)%Z eqn:Hxy.
    + apply Z.ltb_lt in Hxy. constructor; [done|].
      rewrite insert_reverse_Permutation. constructor; [|done].
      unfold newest_first. lia.
    + apply Z.ltb_ge in Hxy. constructor; [by constructor|].
      constructor; [done|].
      eapply Forall_impl; [exact Hy|]. unfold newest_first. intros z Hz. lia.
Qed.

Lemma sorted_reverse_sorted l :
  StronglySorted (newest_first key) (sorted_reverse key l).
Proof.
  induction l as [|x l IH]; simpl; [constructor|].
  by apply insert_reverse_sorted.
Qed.

(** Stability: a list that is already in descending order is left
    as it is, whatever the ties. *)
Lemma sorted_reverse_stable l :
  StronglySorted (newest_first key) l → sorted_reverse key l = l.
Proof.
  induction 1 as [|x l Hl IH Hx]; simpl; [done|].
  rewrite IH. destruct Hx as [|y l Hy _]; simpl; [done|].
  unfold newest_first in Hy.
  destruct (key x <? key y)%Z eqn:Hxy; [|done].
  apply Z.ltb_lt in Hxy. lia.
Qed.

Lemma kept_evicted_Permutation l : kept key l ++ evicted key l ≡ₚ l.
Proof.
  unfold kept, evicted. destruct (_ <? _).
  - by rewrite take_drop, sorted_reverse_Permutation.
  - by rewrite app_nil_r.
Qed.

Lemma evicted_oldest l x y :
  x ∈ evicted key l → y ∈ kept key l → (key x ≤ key y)%Z.
Proof.
  unfold kept, evicted. destruct (_ <? _); [|by intros ?%elem_of_nil].
  intros Hx Hy.
  pose proof (sorted_reverse_sorted l) as Hs.
  rewrite <-(take_drop max_executions_per_type (sorted_reverse key l)) in Hs.
  apply (StronglySorted_app_1_elem_of _ _ _ _ _ Hs Hy Hx).
Qed.

Lemma kept_length l :
  length (kept key l) = length l `min` max_executions_per_type.
Proof.
  unfold kept. destruct (_ <? _) eqn:Hlen.
  - apply Nat.ltb_lt in Hlen.
    rewrite length_take, sorted_reverse_length. lia.
  - apply Nat.ltb_ge in Hlen. lia.
Qed.

Lemma key_max_cons x l :
  key_max key (x :: l) = Some (from_option (Z.max (key x)) (key x) (key_max key l)).
Proof. done. Qed.

Lemma key_max_Permutation l1 l2 :
  l1 ≡ₚ l2 → key_max key l1 = key_max key l2.
Proof.
  induction 1 as [|x l1 l2 _ IH|x y l|l1 l2 l3 _ IH1 _ IH2].
  - done.
  - by rewrite !key_max_cons, IH.
  - rewrite !key_max_cons. destruct (key_max key l); simpl; f_equal; lia.
  - congruence.
Qed.

Lemma key_max_snoc l x :
  key_max key (l ++ [x])
  = Some (from_option (Z.max (key x)) (key x) (key_max key l)).
Proof.
  rewrite (key_max_Permutation (l ++ [x]) (x :: l)); [done|].
  by rewrite Permutation_app_comm.
Qed.

Lemma key_max_sorted x l :
  StronglySorted (newest_first key) (x :: l) →
  key_max key (x :: l) = Some (key x).
Proof.
  revert x. induction l as [|y l IH]; intros x Hs; [done|].
  apply StronglySorted_inv in Hs as [Hs Hx].
  rewrite key_max_cons, (IH y Hs). simpl.
  apply Forall_cons in Hx as [Hy _]. unfold newest_first in Hy.
  f_equal. lia.
Qed.

Lemma key_max_take_sorted n l :
  StronglySorted (newest_first key) l →
  key_max key (take (S n) l) = key_max key l.
Proof.
  intros Hs. destruct l as [|x l]; [done|].
  rewrite (key_max_sorted x l Hs). simpl take.
  apply key_max_sorted.
  change (x :: take n l) with (take (S n) (x :: l)).
  rewrite <-(take_drop (S n) (x :: l)) in Hs.
  by apply StronglySorted_app_1_l in Hs.
Qed.

Lemma key_max_kept l : key_max key (kept key l) = key_max key l.
Proof.
  unfold kept. destruct (_ <? _); [|done].
  unfold max_executions_per_type.
  change 1000 with (S 999).
  rewrite key_max_take_sorted by apply sorted_reverse_sorted.
  apply key_max_Permutation, sorted_reverse_Permutation.
Qed.

End sorted_reverse.

Lemma key_max_app_congr {A} (key : A → Z) (l1 l1' l2 : list A) :
  key_max key l1 = key_max key l1' →
  key_max key (l1 ++ l2) = key_max key (l1' ++ l2).
Proof.
  intros Heq.
  rewrite (key_max_Permutation key (l1 ++ l2) (l2 ++ l1))
    by apply Permutation_app_comm.
  rewrite (key_max_Permutation key (l1' ++ l2) (l2 ++ l1'))
    by apply Permutation_app_comm.
  induction l2 as [|x l2 IH]; [done|].
  by rewrite <-!app_comm_cons, !key_max_cons, IH.
Qed.

Lemma update_metrics_ledger m a k :
  ledger (_update_metrics m a) k
  = if decide (k = workflow_type (obj m a))
    then kept (submitted m) (ledger m k ++ [a])
    else ledger m k.
Proof.
  unfold ledger at 1, _update_metrics. simpl.
  destruct (decide (k = workflow_type (obj m a))) as [->|Hk].
  - by rewrite lookup_insert_eq.
  - by rewrite lookup_insert_ne.
Qed.

Lemma update_metrics_within_retention m a :
  within_retention m → within_retention (_update_metrics m a).
Proof.
  intros Hm k. rewrite update_metrics_ledger.
  destruct (decide _); [|done]. rewrite kept_length. lia.
Qed.

Lemma record_all_within_retention m executions :
  within_retention m → within_retention (record_all m executions).
Proof.
  revert m. induction executions as [|a l IH]; intros m Hm; [done|].
  apply IH. by apply update_metrics_within_retention.
Qed.

Lemma cleanup_ledger m days now k :
  ledger (cleanup_old_executions m days now) k
  = filter (λ a, (now - timedelta_days days < submitted m a)%Z) (ledger m k).
Proof.
  unfold ledger, cleanup_old_executions. simpl.
  rewrite lookup_fmap. by destruct (metrics_store m !! k).
Qed.

Lemma poll_within_retention m a start_time timeout now :
  within_retention m → within_retention (poll m a start_time timeout now).1.
Proof.
  intros Hm. unfold poll, expire.
  repeat case_match; simpl; try done;
    by apply update_metrics_within_retention.
Qed.

Lemma step_within_retention m ev :
  within_retention m → within_retention (step m ev).1.
Proof.
  intros Hm. destruct ev as [wt data pr cid tmo uid now|a now| |outcome now|days now];
    simpl.
  - unfold execute_workflow. destruct (WorkflowQueue.add_workflow _ _) as [[] q];
      [|done].
    by apply poll_within_retention.
  - destruct (waiting m !! a) as [[s t]|]; [|done].
    by apply poll_within_retention.
  - destruct (draining m); [done|].
    unfold drain_next. by destruct (WorkflowQueue.get_next_workflow _) as [[] ?].
  - by destruct (draining m).
  - intros k. rewrite cleanup_ledger.
    etrans; [apply length_filter|done].
Qed.

Lemma run_from_within_retention m evs :
  within_retention m → within_retention (run_from m evs).
Proof.
  intros Hm. induction evs as [|ev evs IH] using rev_ind; [done|].
  rewrite run_from_snoc. by apply step_within_retention.
Qed.

Lemma init_within_retention : within_retention init.
Proof. intros k. unfold ledger. simpl. rewrite lookup_empty. simpl. lia. Qed.

(** Recording a run of executions of one workflow type. *)
Lemma record_all_one_type m k executions :
  Forall (λ a, workflow_type (obj m a) = k) executions →
  length (ledger m k) ≤ max_executions_per_type →
  length (ledger (record_all m executions) k)
  = (length (ledger m k) + length executions) `min` max_executions_per_type
  ∧ key_max (submitted m) (ledger (record_all m executions) k)
    = key_max (submitted m) (ledger m k ++ executions).
Proof.
  revert m. induction executions as [|a l IH]; intros m Hk Hlen.
  - simpl. rewrite app_nil_r. split; [lia|done].
  - apply Forall_cons in Hk as [Ha Hk].
    assert (ledger (_update_metrics m a) k
            = kept (submitted m) (ledger m k ++ [a])) as Hstep.
    { rewrite update_metrics_ledger. by rewrite decide_True. }
    destruct (IH (_update_metrics m a)) as [IHlen IHmax]; [done| |].
    { rewrite Hstep, kept_length. lia. }
    change (record_all m (a :: l)) with (record_all (_update_metrics m a) l).
    split.
    + rewrite IHlen, Hstep, kept_length, length_app. simpl. lia.
    + change (submitted (_update_metrics m a)) with (submitted m) in IHmax.
      rewrite IHmax, Hstep.
      rewrite (key_max_app_congr _ _ (ledger m k ++ [a])) by apply key_max_kept.
      by rewrite <-app_assoc.
Qed.

(** C6. Every history of the metrics store stays within
    [max_executions_per_type] = 1000, whatever is recorded and whatever
    else happens; what one [_update_metrics] drops is never newer, by
    [started_at], than anything it keeps, and nothing is dropped while
    the bound is not exceeded; recording 1005 executions of one type
    into an empty history leaves 1000 of them, the newest submission
    among them being the newest of all 1005. *)
Theorem metrics_store_keeps_the_newest
    (m0 m : t) (evs : list Event) (records : list addr) (execution : addr)
    (executions : list addr) (k : WorkflowType) :
  within_retention m0 →
  ledger m k = [] →
  Forall (λ a, workflow_type (obj m a) = k) executions →
  length executions = 1005 →
  within_retention (run_from m0 evs)
  ∧ within_retention (run evs)
  ∧ within_retention (record_all m0 records)
  ∧ (let wt := workflow_type (obj m0 execution) in
     let before := ledger m0 wt ++ [execution] in
     let after := ledger (_update_metrics m0 execution) wt in
     after ++ evicted (submitted m0) before ≡ₚ before
     ∧ (∀ x y, x ∈ evicted (submitted m0) before → y ∈ after →
               (submitted m0 x ≤ submitted m0 y)%Z)
     ∧ (length before ≤ 1000 → after = before)
     ∧ length after = length before `min` 1000)
  ∧ length (ledger (record_all m executions) k) = 1000
  ∧ key_max (submitted m) (ledger (record_all m executions) k)
    = key_max (submitted m) executions.
Proof.
  intros Hm0 Hempty Hk Hlen. split_and!.
  - by apply run_from_within_retention.
  - apply run_from_within_retention, init_within_retention.
  - by apply record_all_within_retention.
  - simpl. rewrite update_metrics_ledger, decide_True by done. split_and!.
    + apply kept_evicted_Permutation.
    + intros x y. apply evicted_oldest.
    + intros Hshort%Nat.ltb_ge. unfold kept, max_executions_per_type.
      by rewrite Hshort.
    + apply kept_length.
  - destruct (record_all_one_type m k executions) as [-> _]; [done| |].
    + rewrite Hempty. simpl. lia.
    + rewrite Hempty, Hlen. done.
  - destruct (record_all_one_type m k executions) as [_ ->]; [done| |].
    + rewrite Hempty. simpl. lia.
    + by rewrite Hempty.
Qed.

(** ** The trigger rate limit *)

Lemma should_trigger_workflow_false m c now :
  _should_trigger_workflow m c now = false.
Proof. unfold _should_trigger_workflow. by destruct (_ <=? _)%Z. Qed.

(** C8. [_should_trigger_workflow] counts the executions of the
    trigger's workflow type that were submitted after [current_time]
    minus one hour, answers [False] when they are
    [max_executions_per_hour] or more, and answers [False] otherwise
    too: no trigger ever fires. With a limit of 2 and 3 executions in
    the last hour the answer is [False]. *)
Theorem should_trigger_workflow_never_fires
    (m : t) (c : WorkflowTriggerConfig) (now : datetime) :
  (∀ a, a ∈ recent_executions m c now ↔
        a ∈ ledger m (t_workflow_type c)
        ∧ (now - 3600 * 1000000 < submitted m a)%Z)
  ∧ ((max_executions_per_hour c ≤ Z.of_nat (length (recent_executions m c now)))%Z →
     _should_trigger_workflow m c now = false)
  ∧ _should_trigger_workflow m c now = false
  ∧ triggers_fired m now = []
  ∧ length (recent_executions throttled rate_limited_trigger noon) = 3
  ∧ max_executions_per_hour rate_limited_trigger = 2%Z
  ∧ _should_trigger_workflow throttled rate_limited_trigger noon = false.
Proof.
  split_and!.
  - intros a. unfold recent_executions. rewrite list_elem_of_filter.
    unfold submitted, timedelta_hours, microseconds_per_second. intuition lia.
  - intros _. apply should_trigger_workflow_false.
  - apply should_trigger_workflow_false.
  - unfold triggers_fired.
    induction ((map_to_list (trigger_configs m)).*2) as [|c' l IH]; [done|].
    rewrite filter_cons_False; [done|].
    rewrite should_trigger_workflow_false. by intros [_ ?].
  - by vm_compute.
  - done.
  - apply should_trigger_workflow_false.
Qed.

(** ** Metrics *)

Lemma metrics_of_counts k l :
  total_executions (metrics_of k l) = length l
  ∧ successful_executions (metrics_of k l)
    = length (filter (λ e, status e = COMPLETED) l)
  ∧ failed_executions (metrics_of k l)
    = length (filter (λ e, status e = FAILED) l).
Proof. by destruct l. Qed.

Lemma metrics_of_success_rate k l :
  success_rate (metrics_of k l)
  = if decide (length l = 0) then 0%Qc
    else (Qc_of_nat (length (filter (λ e, status e = COMPLETED) l))
          / Qc_of_nat (length l) * Qc_of_nat 100)%Qc.
Proof. by destruct l. Qed.

Lemma omap_step {A B} (f : A → option B) (x : A) (l : list A) :
  omap f (x :: l) = match f x with Some y => y :: omap f l | None => omap f l end.
Proof. done. Qed.

(** The average is the mean over the completed executions with a known
    duration as long as none of these durations is zero. *)
Lemma metrics_of_average k l :
  Forall (λ e, status e = COMPLETED → duration_seconds e ≠ Some 0%Qc) l →
  average_duration_seconds (metrics_of k l) = mean (known_completed_durations l).
Proof.
  intros Hl.
  assert (omap (λ e, if truthy_float (duration_seconds e)
                        && bool_decide (status e = COMPLETED)
                     then duration_seconds e else None) l
          = known_completed_durations l) as Heq.
  { unfold known_completed_durations.
    induction Hl as [|e l He _ IH]; [done|]. rewrite !omap_step, IH.
    destruct (duration_seconds e) as [d|] eqn:Hd; simpl.
    - destruct (bool_decide (status e = COMPLETED)) eqn:Hst.
      + apply bool_decide_eq_true in Hst.
        rewrite bool_decide_eq_false_2; [done|].
        intros ->. by apply He.
      + by rewrite andb_false_r.
    - by destruct (bool_decide (status e = COMPLETED)). }
  destruct l as [|e l]; [done|].
  unfold metrics_of. cbv zeta. cbn [average_duration_seconds].
  by rewrite Heq.
Qed.

(** C7. [get_workflow_metrics] counts the recorded executions, the
    [COMPLETED] and the [FAILED] ones, and reports
    [successful / total * 100], or 0 for an empty history; for two
    completed executions of 1.0 s and 2.0 s and a failed one it
    reports 3, 2, 1, an average of 1.5 and a rate of 200/3. The average
    however leaves out a completed execution whose known duration is
    0.0: for durations 0.0 and 2.0 it is 2.0, where the mean over the
    completed executions with a known duration is 1.0. *)
Theorem get_workflow_metrics_drops_zero_durations (m : t) (k : WorkflowType) :
  let history := obj m <$> ledger m k in
  let r := get_workflow_metrics m k in
  total_executions r = length (ledger m k)
  ∧ successful_executions r = length (filter (λ e, status e = COMPLETED) history)
  ∧ failed_executions r = length (filter (λ e, status e = FAILED) history)
  ∧ success_rate r
    = (if decide (length history = 0) then 0%Qc
       else (Qc_of_nat (successful_executions r) / Qc_of_nat (total_executions r)
             * Qc_of_nat 100)%Qc)
  ∧ (let s := get_workflow_metrics (recorded sample_history) CUSTOMER_ANALYSIS in
     total_executions s = 3 ∧ successful_executions s = 2
     ∧ failed_executions s = 1
     ∧ average_duration_seconds s = Q2Qc (3 # 2)
     ∧ success_rate s = Q2Qc (200 # 3)
     ∧ (Q2Qc (6666 # 100) < success_rate s < Q2Qc (6667 # 100))%Qc)
  ∧ (let z := get_workflow_metrics (recorded instant_history) CUSTOMER_ANALYSIS in
     obj (recorded instant_history) <$> ledger (recorded instant_history) CUSTOMER_ANALYSIS
     = instant_history
     ∧ known_completed_durations instant_history = [Q2Qc 0; Q2Qc 2]
     ∧ mean (known_completed_durations instant_history) = Q2Qc 1
     ∧ average_duration_seconds z = Q2Qc 2
     ∧ average_duration_seconds z ≠ mean (known_completed_durations instant_history)).
Proof.
  cbv zeta. unfold get_workflow_metrics.
  destruct (metrics_of_counts k (obj m <$> ledger m k)) as (Htotal & Hok & Hko).
  rewrite length_fmap in Htotal. split_and!; try done.
  - rewrite metrics_of_success_rate, Hok.
    destruct (metrics_of_counts k (obj m <$> ledger m k)) as (-> & _ & _).
    done.
  - by apply Qc_is_canon; vm_compute.
Qed.

(** ** Retention cleanup *)

Lemma cleanup_completed m days now id a :
  WorkflowQueue.completed_workflows (queue (cleanup_old_executions m days now)) !! id
  = Some a
  ↔ WorkflowQueue.completed_workflows (queue m) !! id = Some a
    ∧ ¬ (submitted m a < cutoff days now)%Z.
Proof.
  unfold cleanup_old_executions. simpl. rewrite lookup_foldr_delete_Some.
  fold (cutoff days now). split.
  - intros [Hkeep Hid]. split; [done|]. intros Hold. apply Hkeep.
    apply list_elem_of_fmap. exists (id, a). split; [done|].
    apply list_elem_of_filter. split; [done|]. by apply elem_of_map_to_list.
  - intros [Hid Hnew]. split; [|done].
    intros [[id' a'] [Heq [Hold Hin%elem_of_map_to_list]%list_elem_of_filter]]%list_elem_of_fmap.
    simpl in *. subst id'. rewrite Hid in Hin. by simplify_eq.
Qed.

(** C9. [cleanup_old_executions] drops from the completed map the
    entries submitted strictly before the cutoff and keeps the others,
    and writes to no record; from the histories of the metrics store it
    keeps the entries submitted strictly after the cutoff, so that it
    also drops an entry submitted exactly at the cutoff: the execution
    of [served], submitted at time 0, is gone from its history after a
    cleanup with seven days of retention run at day seven, and still in
    the completed map. *)
Theorem cleanup_old_executions_drops_entry_at_cutoff
    (m : t) (days : Z) (now : datetime) (k : WorkflowType) (id : string) (a : addr) :
  heap (cleanup_old_executions m days now) = heap m
  ∧ (WorkflowQueue.completed_workflows
       (queue (cleanup_old_executions m days now)) !! id = Some a
     ↔ WorkflowQueue.completed_workflows (queue m) !! id = Some a
       ∧ ¬ (submitted m a < cutoff days now)%Z)
  ∧ (a ∈ ledger (cleanup_old_executions m days now) k
     ↔ a ∈ ledger m k ∧ (cutoff days now < submitted m a)%Z)
  ∧ submitted served 0 = cutoff 7 one_week
  ∧ ledger served CUSTOMER_ANALYSIS = [0]
  ∧ WorkflowQueue.completed_workflows (queue served) !! served_id = Some 0
  ∧ ledger (cleanup_old_executions served 7 one_week) CUSTOMER_ANALYSIS = []
  ∧ WorkflowQueue.completed_workflows
      (queue (cleanup_old_executions served 7 one_week)) !! served_id = Some 0.
Proof.
  split_and!.
  - done.
  - apply cleanup_completed.
  - rewrite cleanup_ledger, list_elem_of_filter. unfold cutoff. tauto.
  - by vm_compute.
  - by vm_compute.
  - by vm_compute.
  - by vm_compute.
  - by vm_compute.
Qed.

(** ** Terminal records *)

(** What the caller of the timed-out submission holds, and what the
    metrics store holds, is the object the drain loop writes to. *)
Example slow_gateway_statuses :
  status <$> (heap (run slow_gateway) !! 0) = Some TIMEOUT
  ∧ ledger (run slow_gateway) CUSTOMER_ANALYSIS = [0]
  ∧ draining (run slow_gateway) = Some 0
  ∧ status <$> (heap (step (run slow_gateway) late_answer).1 !! 0) = Some COMPLETED.
Proof. by vm_compute. Qed.

(** C3, as stated: refuted. The record that [execute_workflow] marked
    [TIMEOUT] and returned is overwritten when the gateway answers. *)
Lemma timed_out_record_is_overwritten : ¬ terminal_records_are_final.
Proof.
  intros Hfinal.
  assert (status <$> (heap (step (run slow_gateway) late_answer).1 !! 0)
          = Some TIMEOUT) as Hstatus.
  { rewrite (Hfinal slow_gateway late_answer 0 (obj (run slow_gateway) 0));
      by vm_compute. }
  by vm_compute in Hstatus.
Qed.

Lemma expire_other m a b timeout now :
  a ≠ b →
  heap (expire m b timeout now).1 !! a = heap m !! a
  ∧ length (heap (expire m b timeout now).1) = length (heap m)
  ∧ waiting (expire m b timeout now).1 !! a = waiting m !! a.
Proof.
  intros Hab. simpl. split_and!.
  - by apply list_lookup_insert_ne.
  - apply length_insert.
  - by apply lookup_delete_ne.
Qed.

Lemma poll_other m a b start_time timeout now :
  a ≠ b →
  heap (poll m b start_time timeout now).1 !! a = heap m !! a
  ∧ length (heap (poll m b start_time timeout now).1) = length (heap m)
  ∧ waiting (poll m b start_time timeout now).1 !! a = waiting m !! a.
Proof.
  intros Hab. unfold poll.
  destruct (_ <? _)%Z; [|by apply expire_other].
  destruct (WorkflowQueue.completed_workflows _ !! _) as [c|].
  { cbn [fst]. unfold set_waiting, _update_metrics, set_metrics_store.
    cbn [heap waiting]. split_and!; [done..|]. by apply lookup_delete_ne. }
  destruct (bool_decide (_ ∈ WorkflowQueue.running_workflows _)).
  { cbn [fst]. unfold set_waiting. cbn [heap waiting].
    split_and!; [done..|]. by apply lookup_insert_ne. }
  destruct (bool_decide _); [|by apply expire_other].
  cbn [fst]. unfold set_waiting. cbn [heap waiting].
  split_and!; [done..|]. by apply lookup_insert_ne.
Qed.

Lemma step_settled m ev a :
  settled m a →
  heap (step m ev).1 !! a = heap m !! a ∧ settled (step m ev).1 a.
Proof.
  intros (Ha & Hq & Hd & Hw). unfold settled.
  destruct ev as [wt data pr cid tmo uid now|b now| |outcome now|days now];
    simpl.
  - unfold execute_workflow, WorkflowQueue.add_workflow.
    destruct (_ <=? _); simpl; [done|].
    match goal with
    | |- context [poll ?m1 ?b ?s ?t ?n] =>
        destruct (poll_frame m1 b s t n) as [-> ->];
        destruct (poll_other m1 a b s t n) as (-> & -> & ->); [lia|]
    end.
    simpl. rewrite length_app, lookup_app_l by done. simpl.
    split_and!; [done|lia| |done..].
    rewrite elem_of_app, list_elem_of_singleton. intros [?|?]; [done|lia].
  - destruct (waiting m !! b) as [[s t]|] eqn:Hb; [|done].
    assert (a ≠ b) as Hab by (intros ->; congruence).
    destruct (poll_frame m b s t now) as [-> ->].
    by destruct (poll_other m a b s t now) as (-> & -> & ->).
  - destruct (draining m) as [w|] eqn:Hdr; simpl; [by rewrite Hdr|].
    unfold drain_next, WorkflowQueue.get_next_workflow.
    destruct (_ <=? _); [by rewrite Hdr|].
    destruct (WorkflowQueue.queue (queue m)) as [|w rest] eqn:Hqueue; simpl.
    + by rewrite Hqueue, Hdr.
    + apply not_elem_of_cons in Hq as [Haw Hrest].
      split_and!; [done..|congruence|done].
  - destruct (draining m) as [w|] eqn:Hdr; simpl; [|by rewrite Hdr].
    assert (w ≠ a) as Hwa by congruence.
    rewrite length_insert, list_lookup_insert_ne by done. done.
  - done.
Qed.

(** C3, as amended: an object that is no longer queued, no longer with
    the gateway, and whose [execute_workflow] call has returned is
    never written to again, whatever happens next. *)
Theorem settled_record_is_final (m : t) (a : addr) (evs : list Event) :
  settled m a →
  heap (run_from m evs) !! a = heap m !! a ∧ settled (run_from m evs) a.
Proof.
  intros Hm. induction evs as [|ev evs [IHheap IHsettled]] using rev_ind;
    [done|].
  rewrite run_from_snoc.
  destruct (step_settled (run_from m evs) ev a IHsettled) as [-> ?].
  done.
Qed.

(** ** Batches *)

Section batch_facts.
Context {World : Type} `{Runtime World}.

Lemma await_coroutine_again task w :
  co_awaited task = true →
  await_coroutine task w = (Raised already_awaited, w).
Proof. intros Hdone. unfold await_coroutine. by rewrite Hdone. Qed.

(** In fail-fast mode the first loop awaits every coroutine it makes. *)
Lemma prepare_tasks_fail_fast req bid i kinds tasks (w : World) :
  fail_fast req = true →
  Forall (λ c, co_awaited c = true) tasks →
  ∃ tasks' w',
    prepare_tasks req bid i kinds tasks w = (Ok tasks', w')
    ∧ Forall (λ c, co_awaited c = true) tasks'
    ∧ (kinds ≠ [] → tasks' ≠ []).
Proof.
  intros Hff. revert i tasks w.
  induction kinds as [|wt rest IH]; intros i tasks w Htasks.
  { by exists tasks, w. }
  cbn [prepare_tasks]. rewrite Hff. unfold await_coroutine.
  cbn [co_awaited co_workflow_type co_data co_correlation_id].
  destruct (rt_execute_workflow _ _ _ _) as [r w1].
  set (task' := mkCoroutine wt _ _ true).
  assert (Forall (λ c, co_awaited c = true) (tasks ++ [task'])) as Htasks'.
  { apply Forall_app. split; [done|]. by constructor. }
  destruct (bool_decide (status r = FAILED)).
  - exists (tasks ++ [task']), w1. split_and!; [done..|].
    intros _. by destruct tasks.
  - destruct (IH (S i) (tasks ++ [task']) w1 Htasks')
      as (tasks'' & w'' & Heq & Hall & Hne).
    exists tasks'', w''. split_and!; [done..|].
    intros _. destruct rest as [|wt' rest']; [|by apply Hne].
    cbn [prepare_tasks] in Heq. simplify_eq. by destruct tasks.
Qed.

Lemma await_in_turn_awaited task rest results (w : World) :
  co_awaited task = true →
  await_in_turn (task :: rest) results w = (Raised already_awaited, w).
Proof.
  intros Hdone. cbn [await_in_turn]. by rewrite await_coroutine_again.
Qed.

(** A fail-fast batch of at least one workflow ends in the
    [RuntimeError] of the second [await] on its first coroutine. *)
Lemma execute_batch_workflows_fail_fast req (w : World) :
  fail_fast req = true →
  workflows req ≠ [] →
  (execute_batch_workflows req w).1 = Raised already_awaited.
Proof.
  intros Hff Hne. unfold execute_batch_workflows.
  destruct (if truthy_str (b_correlation_id req) then _ else _) as [bid w0].
  destruct (prepare_tasks_fail_fast req bid 0 (workflows req) [] w0 Hff)
    as (tasks & w1 & -> & Hall & Hnil); [constructor|].
  rewrite Hff. destruct tasks as [|task rest]; [by destruct Hnil|].
  apply Forall_cons in Hall as [Hdone _].
  by rewrite await_in_turn_awaited.
Qed.

End batch_facts.

(** C1, on the code: with [fail_fast] and kinds [[A; B; C]], A failing,
    the first loop submits A only and awaits it, and B and C only if
    A's result is [TIMEOUT]; the second loop then awaits A's coroutine
    again, and the call ends in a [RuntimeError] where a batch result
    with the one record of A was due. *)
Theorem fail_fast_batch_raises :
  let tasks :=
    prepare_tasks fail_fast_batch "batch_0" 0 (workflows fail_fast_batch) []
      (Schedule.draw_uuid (Schedule.start failing_first)).2 in
  let out := execute_batch_workflows fail_fast_batch (Schedule.start failing_first) in
  let late := execute_batch_workflows fail_fast_batch stalled in
  (∃ data, tasks.1 = Ok [mkCoroutine CUSTOMER_ANALYSIS data (Some "batch_0") true])
  ∧ status <$> heap (Schedule.manager tasks.2) = [FAILED]
  ∧ out.1 = Raised already_awaited
  ∧ status <$> heap (Schedule.manager out.2) = [FAILED]
  ∧ workflow_type <$> heap (Schedule.manager out.2) = [CUSTOMER_ANALYSIS]
  ∧ late.1 = Raised already_awaited
  ∧ status <$> heap (Schedule.manager late.2) = [TIMEOUT; TIMEOUT; TIMEOUT].
Proof.
  cbv zeta. split_and!.
  - eexists. vm_compute. reflexivity.
  - by vm_compute.
  - by vm_compute.
  - by vm_compute.
  - by vm_compute.
  - by vm_compute.
  - by vm_compute.
Qed.

Lemma poll_returns_or_waits m a start_time timeout now :
  is_Some (poll m a start_time timeout now).2
  ∨ waiting (poll m a start_time timeout now).1 !! a = Some (start_time, timeout).
Proof.
  unfold poll, expire.
  destruct (_ <? _)%Z; [|by left].
  destruct (WorkflowQueue.completed_workflows _ !! _); [by left|].
  destruct (bool_decide (_ ∈ WorkflowQueue.running_workflows _)).
  { right. apply lookup_insert_eq. }
  destruct (bool_decide _); [|by left].
  right. apply lookup_insert_eq.
Qed.

Lemma poll_overdue m a start_time timeout now :
  (timeout * microseconds_per_second ≤ now - start_time)%Z →
  poll m a start_time timeout now = expire m a timeout now.
Proof. intros Hlate%Z.ltb_ge. unfold poll. by rewrite Hlate. Qed.

(** C2, on the code: [execute_workflow] returns a record or suspends,
    and a suspended call returns a record when it wakes up after its
    timeout; but [execute_batch_workflows] raises: whatever the event
    loop does, a fail-fast batch of at least one workflow ends in
    [RuntimeError], even when every workflow completes. *)
Theorem execute_batch_workflows_raises
    {World : Type} `{Runtime World} (req : BatchWorkflowRequest) (w : World)
    (m : t) (a : addr) (start_time timeout now : Z) :
  fail_fast req = true →
  workflows req ≠ [] →
  waiting m !! a = Some (start_time, timeout) →
  (timeout * microseconds_per_second ≤ now - start_time)%Z →
  (∀ wt data priority cid tmo uid,
     let out := execute_workflow m wt data priority cid tmo uid now in
     is_Some out.2
     ∨ waiting out.1 !! length (heap m) = Some (now, effective_timeout tmo))
  ∧ (∃ m' r, step m (Wake a now) = (m', Some (Returned (Some a) r)))
  ∧ (execute_batch_workflows req w).1
    = Raised (RuntimeError "cannot reuse already awaited coroutine").
Proof.
  intros Hff Hne Hwait Hlate. split_and!.
  - intros wt data priority cid tmo uid. unfold execute_workflow.
    destruct (WorkflowQueue.add_workflow _ _) as [[] q]; [|by left].
    apply poll_returns_or_waits.
  - simpl. rewrite Hwait, poll_overdue by done. by eexists _, _.
  - by apply execute_batch_workflows_fail_fast.
Qed.

(** ** The statements at concrete inputs *)

Lemma get_next_workflow_keeps_concurrency_cap_witness :
  within_concurrency busy ∧ within_concurrency (run_from busy rush).
Proof.
  assert (within_concurrency busy) as Hbusy by (vm_compute; lia).
  split; [exact Hbusy|].
  destruct (get_next_workflow_keeps_concurrency_cap (queue busy) busy rush
              [Take "customer-analysis_a1b2c3d4"; Admit 1; Take "x"] Hbusy)
    as (_ & _ & Hrun & _).
  exact Hrun.
Defined.

Lemma full_queue_rejects_at_once_witness :
  WorkflowQueue.maxlen (queue busy) ≤ length (WorkflowQueue.queue (queue busy))
  ∧ WorkflowQueue.add_workflow (queue busy) 1 = (false, queue busy)
  ∧ within_capacity (run_from tiny rush).
Proof.
  assert (WorkflowQueue.maxlen (queue busy)
          ≤ length (WorkflowQueue.queue (queue busy))) as Hfull
    by (vm_compute; lia).
  assert (length (WorkflowQueue.queue (queue tiny))
          < WorkflowQueue.maxlen (queue tiny)) as Hfree
    by (vm_compute; lia).
  assert (within_capacity tiny) as Htiny by (vm_compute; lia).
  destruct (full_queue_rejects_at_once busy tiny tiny 1 rush
              CUSTOMER_ANALYSIS ∅ 5 None None "0badcafe" 500000%Z
              Hfull Hfree Htiny)
    as (Hadd & _ & _ & _ & Hrun & _).
  split_and!; [exact Hfull|exact Hadd|exact Hrun].
Defined.

Lemma rejected_submission_not_recorded_witness :
  WorkflowQueue.maxlen (queue busy) ≤ length (WorkflowQueue.queue (queue busy))
  ∧ metrics_store
      (execute_workflow busy CRM_LEAD_MANAGEMENT ∅ 5 None None "0badcafe" 500000%Z).1
    = metrics_store busy.
Proof.
  assert (WorkflowQueue.maxlen (queue busy)
          ≤ length (WorkflowQueue.queue (queue busy))) as Hfull
    by (vm_compute; lia).
  split; [exact Hfull|].
  destruct (rejected_submission_not_recorded busy CRM_LEAD_MANAGEMENT ∅ 5
              None None "0badcafe" 500000%Z Hfull)
    as (_ & Hstore & _).
  exact Hstore.
Defined.

Lemma metrics_store_keeps_the_newest_witness :
  length (seq 0 1005) = 1005
  ∧ length (ledger (record_all crowd (seq 0 1005)) CUSTOMER_ANALYSIS) = 1000
  ∧ key_max (submitted crowd) (ledger (record_all crowd (seq 0 1005)) CUSTOMER_ANALYSIS)
    = key_max (submitted crowd) (seq 0 1005).
Proof.
  assert (within_retention init) as Hinit.
  { intros k. destruct k; vm_compute; lia. }
  assert (ledger crowd CUSTOMER_ANALYSIS = []) as Hempty by reflexivity.
  assert (Forall (λ a, workflow_type (obj crowd a) = CUSTOMER_ANALYSIS)
            (seq 0 1005)) as Hkind.
  { apply (bool_decide_unpack _). vm_compute. exact I. }
  assert (length (seq 0 1005) = 1005) as Hlen by (vm_compute; reflexivity).
  destruct (metrics_store_keeps_the_newest init crowd [] [] 0 (seq 0 1005)
              CUSTOMER_ANALYSIS Hinit Hempty Hkind Hlen)
    as (_ & _ & _ & _ & Hkept & Hnewest).
  split_and!; [exact Hlen|exact Hkept|exact Hnewest].
Defined.

Lemma settled_record_is_final_witness :
  settled answered 0
  ∧ heap (run_from answered aftermath) !! 0 = heap answered !! 0.
Proof.
  assert (settled answered 0) as Hsettled.
  { split_and!.
    - vm_compute. lia.
    - apply (bool_decide_unpack _). vm_compute. exact I.
    - vm_compute. discriminate.
    - vm_compute. reflexivity. }
  split; [exact Hsettled|].
  destruct (settled_record_is_final answered 0 aftermath Hsettled) as [Hheap _].
  exact Hheap.
Defined.

Lemma execute_batch_workflows_raises_witness :
  fail_fast single_batch = true
  ∧ workflows single_batch ≠ []
  ∧ (execute_batch_workflows single_batch
       (Schedule.start (Schedule.webhook_answer 200))).1
    = Raised (RuntimeError "cannot reuse already awaited coroutine").
Proof.
  assert (fail_fast single_batch = true) as Hff by reflexivity.
  assert (workflows single_batch ≠ []) as Hne by discriminate.
  assert (waiting busy !! 0 = Some (0%Z, 2%Z)) as Hwait
    by (vm_compute; reflexivity).
  assert (2 * microseconds_per_second ≤ 2000000 - 0)%Z as Hlate
    by (vm_compute; discriminate).
  destruct (execute_batch_workflows_raises single_batch
              (Schedule.start (Schedule.webhook_answer 200))
              busy 0 0%Z 2%Z 2000000%Z Hff Hne Hwait Hlate)
    as (_ & _ & Hraise).
  split_and!; [exact Hff|exact Hne|exact Hraise].
Defined.

(** * Further properties *)

(** ** Identity of the executions *)

Lemma same_identity_refl r : same_identity r r.
Proof. by repeat split. Qed.

Lemma same_identity_trans r1 r2 r3 :
  same_identity r1 r2 → same_identity r2 r3 → same_identity r1 r3.
Proof. unfold same_identity. intuition congruence. Qed.

Lemma insert_same_identity (h : list WorkflowExecution) b x a :
  same_identity (h !!! b) x →
  same_identity (h !!! a) (<[b:=x]> h !!! a).
Proof.
  intros Hx. destruct (decide (b < length h)) as [Hb|Hb].
  - destruct (decide (a = b)) as [->|Hab].
    + by rewrite list_lookup_total_insert_eq.
    + rewrite list_lookup_total_insert_ne by done. apply same_identity_refl.
  - rewrite list_insert_ge by lia. apply same_identity_refl.
Qed.

Lemma expire_identity m b timeout now a :
  same_identity (obj m a) (obj (expire m b timeout now).1 a)
  ∧ length (heap (expire m b timeout now).1) = length (heap m).
Proof.
  split.
  - apply insert_same_identity. by repeat split.
  - apply length_insert.
Qed.

Lemma poll_identity m b start_time timeout now a :
  same_identity (obj m a) (obj (poll m b start_time timeout now).1 a)
  ∧ length (heap (poll m b start_time timeout now).1) = length (heap m).
Proof.
  unfold poll.
  destruct (_ <? _)%Z; [|by apply expire_identity].
  destruct (WorkflowQueue.completed_workflows _ !! _) as [c|].
  { split; [apply same_identity_refl|done]. }
  destruct (bool_decide (_ ∈ WorkflowQueue.running_workflows _)).
  { split; [apply same_identity_refl|done]. }
  destruct (bool_decide _); [|by apply expire_identity].
  split; [apply same_identity_refl|done].
Qed.

Lemma step_identity m ev a :
  a < length (heap m) →
  same_identity (obj m a) (obj (step m ev).1 a)
  ∧ length (heap m) ≤ length (heap (step m ev).1).
Proof.
  intros Ha.
  destruct ev as [wt data pr cid tmo uid now|b now| |outcome now|days now];
    simpl.
  - unfold execute_workflow. destruct (WorkflowQueue.add_workflow _ _) as [[] q].
    + match goal with
      | |- context [poll ?m1 ?b ?s ?t ?n] =>
          destruct (poll_identity m1 b s t n a) as [Hid Hlen];
          rewrite Hlen; revert Hid
      end.
      unfold obj at 1. cbn [heap set_queue set_heap].
      rewrite lookup_total_app_l, length_app by done.
      intros Hid. split; [done|lia].
    + split; [apply same_identity_refl|done].
  - destruct (waiting m !! b) as [[s t]|].
    + destruct (poll_identity m b s t now a) as [Hid ->]. done.
    + split; [apply same_identity_refl|done].
  - split; [|by destruct (draining m); [|unfold drain_next;
      destruct (WorkflowQueue.get_next_workflow _) as [[] ?]]].
    destruct (draining m); [apply same_identity_refl|].
    unfold drain_next. destruct (WorkflowQueue.get_next_workflow _) as [[] ?];
      apply same_identity_refl.
  - destruct (draining m) as [w|]; [|split; [apply same_identity_refl|done]].
    split.
    + apply insert_same_identity. by destruct outcome; repeat split.
    + cbn. by rewrite length_insert.
  - split; [apply same_identity_refl|done].
Qed.

(** X1. The id, the workflow type, the input data, the submission
    time, the correlation id and the retry count of an execution are
    never written after its creation, whatever happens to its status. *)
Theorem identity_is_never_rewritten (m : t) (evs : list Event) (a : addr) :
  a < length (heap m) →
  same_identity (obj m a) (obj (run_from m evs) a)
  ∧ a < length (heap (run_from m evs)).
Proof.
  intros Ha. induction evs as [|ev evs [IHid IHlen]] using rev_ind.
  { split; [apply same_identity_refl|done]. }
  rewrite run_from_snoc.
  destruct (step_identity (run_from m evs) ev a IHlen) as [Hid Hlen].
  split; [by eapply same_identity_trans|lia].
Qed.

Lemma identity_is_never_rewritten_witness :
  0 < length (heap busy)
  ∧ execution_id (obj (run_from busy rush) 0) = "customer-analysis_a1b2c3d4"
  ∧ started_at (obj (run_from busy rush) 0) = 0%Z.
Proof.
  assert (0 < length (heap busy)) as Ha by (vm_compute; lia).
  destruct (identity_is_never_rewritten busy rush 0 Ha)
    as [(Hid & _ & _ & Hstart & _) _].
  split; [exact Ha|]. rewrite Hid, Hstart. split; reflexivity.
Defined.

(** ** Order of dispatch *)

Lemma init_well_formed : well_formed init.
Proof. split_and!; [constructor|constructor|done|done]. Qed.

(** A state with the same deque, running set and drain loop, a heap
    that only grew and the same ids is well formed if the former one is. *)
Lemma well_formed_transfer m m' :
  WorkflowQueue.queue (queue m') = WorkflowQueue.queue (queue m) →
  WorkflowQueue.running_workflows (queue m')
  = WorkflowQueue.running_workflows (queue m) →
  draining m' = draining m →
  length (heap m) ≤ length (heap m') →
  (∀ a, a < length (heap m) → execution_id (obj m' a) = execution_id (obj m a)) →
  well_formed m → well_formed m'.
Proof.
  intros Hq Hr Hd Hlen Hid (Hsorted & Hvalid & Hdrain & Hrun).
  unfold well_formed. rewrite Hq, Hr, Hd. split_and!.
  - done.
  - eapply Forall_impl; [exact Hvalid|]. intros a Ha. simpl in Ha. lia.
  - intros w Hw. specialize (Hdrain w Hw). lia.
  - rewrite Hrun. destruct (draining m) as [w|]; [|done].
    by rewrite Hid by by apply Hdrain.
Qed.

Lemma poll_well_formed m b start_time timeout now :
  well_formed m → well_formed (poll m b start_time timeout now).1.
Proof.
  destruct (poll_frame m b start_time timeout now) as [Hq Hd].
  apply well_formed_transfer; [by rewrite Hq..|done| |].
  - by destruct (poll_identity m b start_time timeout now 0) as [_ ->].
  - intros a _. by destruct (poll_identity m b start_time timeout now a)
      as [(-> & _) _].
Qed.

Lemma step_well_formed m ev : well_formed m → well_formed (step m ev).1.
Proof.
  intros Hm.
  destruct ev as [wt data pr cid tmo uid now|b now| |outcome now|days now];
    simpl.
  - unfold execute_workflow, WorkflowQueue.add_workflow.
    destruct (_ <=? _); [done|]. apply poll_well_formed.
    destruct Hm as (Hsorted & Hvalid & Hdrain & Hrun).
    unfold well_formed. cbn [queue heap draining set_queue set_heap
      WorkflowQueue.queue WorkflowQueue.set_queue
      WorkflowQueue.running_workflows].
    rewrite length_app. simpl. split_and!.
    + apply StronglySorted_app_2; [|done|repeat constructor].
      intros a1 a2 Ha1 ->%list_elem_of_singleton.
      by apply (proj1 (Forall_forall _ _) Hvalid).
    + apply Forall_app. split.
      * eapply Forall_impl; [exact Hvalid|]. intros a Ha. simpl in Ha. lia.
      * repeat constructor. lia.
    + intros w Hw. specialize (Hdrain w Hw). lia.
    + rewrite Hrun. destruct (draining m) as [w|] eqn:Hw; [|done].
      unfold obj. cbn [heap set_queue set_heap].
      by rewrite lookup_total_app_l by by apply Hdrain.
  - destruct (waiting m !! b) as [[s t]|]; [|done]. by apply poll_well_formed.
  - destruct (draining m) as [w|] eqn:Hw; [done|].
    unfold drain_next, WorkflowQueue.get_next_workflow.
    destruct (_ <=? _); [done|].
    pose proof Hm as (Hsorted & Hvalid & Hdrain & Hrun). rewrite Hw in Hrun.
    destruct (WorkflowQueue.queue (queue m)) as [|a rest] eqn:Hqueue; [done|].
    apply StronglySorted_cons in Hsorted as [_ Hsorted].
    apply Forall_cons in Hvalid as [Ha Hvalid].
    unfold well_formed. cbn. split_and!; [done..| |].
    + by intros ? [= <-].
    + rewrite Hrun. by rewrite (right_id_L ∅ (∪)).
  - destruct (draining m) as [w|] eqn:Hw; [|done].
    destruct Hm as (Hsorted & Hvalid & Hdrain & Hrun). rewrite Hw in Hrun.
    unfold well_formed, drain_done. cbn. rewrite length_insert. split_and!;
      [done..| |].
    + by intros ? [=].
    + rewrite Hrun.
      assert (execution_id (obj (set_heap m (<[w:=
                match outcome with
                | GwResult result => copy_result (obj m w) result
                | GwException text => set_exception (obj m w) text now
                end]> (heap m))) w) = execution_id (obj m w)) as ->.
      { unfold obj at 1. cbn [heap set_heap].
        by destruct (insert_same_identity (heap m) w
          (match outcome with
           | GwResult result => copy_result (obj m w) result
           | GwException text => set_exception (obj m w) text now
           end) w) as (-> & _); [destruct outcome; repeat split|]. }
      apply difference_diag_L.
  - eapply well_formed_transfer; [| | | | |exact Hm]; done.
Qed.

Lemma run_from_well_formed m evs :
  well_formed m → well_formed (run_from m evs).
Proof.
  intros Hm. induction evs as [|ev evs IH] using rev_ind; [done|].
  rewrite run_from_snoc. by apply step_well_formed.
Qed.

(** X2. The drain loop takes the executions in the order in which
    they were taken into the queue: the references in the queue are always in
    increasing order of creation, so the execution taken was created
    before every execution it leaves in the queue; and the priority of
    a submission plays no part. *)
Theorem executions_dispatched_in_admission_order
    (evs : list Event) (w : addr) :
  draining (run evs) = None →
  draining (drain_next (run evs)) = Some w →
  StronglySorted lt (WorkflowQueue.queue (queue (run evs)))
  ∧ WorkflowQueue.queue (queue (run evs))
    = w :: WorkflowQueue.queue (queue (drain_next (run evs)))
  ∧ Forall (λ a, w < a) (WorkflowQueue.queue (queue (drain_next (run evs))))
  ∧ (∀ m wt data p1 p2 cid tmo uid now,
       execute_workflow m wt data p1 cid tmo uid now
       = execute_workflow m wt data p2 cid tmo uid now).
Proof.
  intros Hidle Htaken.
  destruct (run_from_well_formed init evs init_well_formed)
    as (Hsorted & _). fold (run evs) in Hsorted.
  split; [done|].
  revert Htaken. unfold drain_next, WorkflowQueue.get_next_workflow.
  destruct (_ <=? _); [by rewrite Hidle|].
  destruct (WorkflowQueue.queue (queue (run evs))) as [|a rest] eqn:Hqueue;
    [by rewrite Hidle|].
  cbn. intros [= ->]. split_and!; [done| |done].
  by apply StronglySorted_cons in Hsorted as [? _].
Qed.

Lemma executions_dispatched_in_admission_order_witness :
  draining (run three_submissions) = None
  ∧ WorkflowQueue.queue (queue (run three_submissions))
    = 0 :: WorkflowQueue.queue (queue (drain_next (run three_submissions))).
Proof.
  assert (draining (run three_submissions) = None) as Hidle
    by (vm_compute; reflexivity).
  assert (draining (drain_next (run three_submissions)) = Some 0) as Htaken
    by (vm_compute; reflexivity).
  destruct (executions_dispatched_in_admission_order three_submissions 0
              Hidle Htaken) as (_ & Hhead & _).
  split; [exact Hidle|exact Hhead].
Defined.

(** ** What the queue status can show *)

Lemma step_limits m ev :
  WorkflowQueue.max_concurrent (queue (step m ev).1)
  = WorkflowQueue.max_concurrent (queue m)
  ∧ WorkflowQueue.maxlen (queue (step m ev).1) = WorkflowQueue.maxlen (queue m).
Proof.
  destruct ev as [wt data pr cid tmo uid now|b now| |outcome now|days now];
    simpl.
  - by destruct (execute_workflow_frame m wt data pr cid tmo uid now)
      as (_ & _ & -> & -> & _).
  - destruct (waiting m !! b) as [[s t]|]; [|done].
    by destruct (poll_frame m b s t now) as [-> _].
  - destruct (draining m); [done|].
    unfold drain_next, WorkflowQueue.get_next_workflow.
    destruct (_ <=? _); [done|].
    by destruct (WorkflowQueue.queue (queue m)).
  - by destruct (draining m).
  - done.
Qed.

Lemma run_from_limits m evs :
  WorkflowQueue.max_concurrent (queue (run_from m evs))
  = WorkflowQueue.max_concurrent (queue m)
  ∧ WorkflowQueue.maxlen (queue (run_from m evs)) = WorkflowQueue.maxlen (queue m).
Proof.
  induction evs as [|ev evs [IH1 IH2]] using rev_ind; [done|].
  rewrite run_from_snoc.
  destruct (step_limits (run_from m evs) ev) as [-> ->]. done.
Qed.

(** X3. While the manager runs its one drain loop, whatever the
    submissions, wake-ups, drain steps and cleanups since its creation,
    [get_queue_status] shows at most one running workflow, although it
    shows a [max_concurrent] of 5: the drain loop awaits each gateway
    call before it takes the next execution. The queue size is at most
    the capacity, which stays 1000. *)
Theorem get_queue_status_shows_one_running (evs : list Event) :
  let s := get_queue_status (run evs) in
  running_count s ≤ 1
  ∧ (running_count s = 1 ↔ is_Some (draining (run evs)))
  ∧ status_max_concurrent s = 5
  ∧ queue_capacity s = 1000
  ∧ queue_size s ≤ queue_capacity s.
Proof.
  cbn zeta. unfold get_queue_status. cbn [running_count status_max_concurrent
    queue_capacity queue_size].
  destruct (run_from_well_formed init evs init_well_formed)
    as (_ & _ & _ & Hrun). fold (run evs) in Hrun.
  destruct (run_from_limits init evs) as [Hmax Hcap]. fold (run evs) in Hmax, Hcap.
  unfold WorkflowQueue.get_running_count. rewrite Hrun, Hmax, Hcap.
  split_and!; [| |done|done|].
  - destruct (draining (run evs)); [by rewrite size_singleton|by rewrite size_empty; lia].
  - destruct (draining (run evs)).
    + rewrite size_singleton. by split.
    + rewrite size_empty. split; [done|by intros [? ?]].
  - rewrite <-Hcap. apply (run_from_within_capacity init evs).
    unfold within_capacity. vm_compute. lia.
Qed.

(** ** A timeout does not withdraw the execution *)

Lemma obj_expire m a timeout now :
  a < length (heap m) →
  obj (expire m a timeout now).1 a
  = set_failure (obj m a) TIMEOUT (timeout_message timeout) now.
Proof.
  intros Ha. unfold obj at 1. cbn. by rewrite list_lookup_total_insert_eq.
Qed.

(** X4. Giving up on an execution does not take it out of the queue:
    when the caller of a queued execution times out, the execution is
    marked [TIMEOUT] and returned, and it is still at its place in the
    queue; the next turn of the drain loop hands it to the gateway all
    the same. *)
Theorem timed_out_execution_is_still_dispatched
    (m : t) (a : addr) (start_time timeout now : Z) (rest : list addr) :
  waiting m !! a = Some (start_time, timeout) →
  (timeout * microseconds_per_second ≤ now - start_time)%Z →
  a < length (heap m) →
  WorkflowQueue.queue (queue m) = a :: rest →
  draining m = None →
  size (WorkflowQueue.running_workflows (queue m))
  < WorkflowQueue.max_concurrent (queue m) →
  let m1 := (step m (Wake a now)).1 in
  let m2 := (step m1 DrainNext).1 in
  (step m (Wake a now)).2
  = Some (Returned (Some a)
            (set_failure (obj m a) TIMEOUT (timeout_message timeout) now))
  ∧ status (obj m1 a) = TIMEOUT
  ∧ WorkflowQueue.queue (queue m1) = a :: rest
  ∧ draining m2 = Some a
  ∧ WorkflowQueue.queue (queue m2) = rest
  ∧ execution_id (obj m a) ∈ WorkflowQueue.running_workflows (queue m2).
Proof.
  intros Hwait Hlate Ha Hqueue Hidle Hslot. cbn zeta. cbn [step].
  rewrite Hwait, poll_overdue by done.
  pose proof (obj_expire m a timeout now Ha) as Hobj.
  destruct (expire_frame m a timeout now) as [Hq Hd].
  split_and!.
  - unfold expire. cbn [snd]. do 2 f_equal. exact Hobj.
  - by rewrite Hobj.
  - by rewrite Hq.
  - rewrite Hd, Hidle. cbn [fst]. unfold drain_next, WorkflowQueue.get_next_workflow.
    rewrite Hq, Hqueue. apply Nat.leb_gt in Hslot. by rewrite Hslot.
  - rewrite Hd, Hidle. cbn [fst]. unfold drain_next, WorkflowQueue.get_next_workflow.
    rewrite Hq, Hqueue. apply Nat.leb_gt in Hslot. by rewrite Hslot.
  - rewrite Hd, Hidle. cbn [fst]. unfold drain_next, WorkflowQueue.get_next_workflow.
    rewrite Hq, Hqueue. apply Nat.leb_gt in Hslot. rewrite Hslot.
    cbn [queue set_draining set_queue WorkflowQueue.mark_running
      WorkflowQueue.running_workflows WorkflowQueue.set_running].
    rewrite Hobj. apply elem_of_union_l, elem_of_singleton. done.
Qed.

Lemma timed_out_execution_is_still_dispatched_witness :
  waiting busy !! 0 = Some (0%Z, 2%Z)
  ∧ draining (step (step busy (Wake 0 2500000%Z)).1 DrainNext).1 = Some 0.
Proof.
  assert (waiting busy !! 0 = Some (0%Z, 2%Z)) as Hwait
    by (vm_compute; reflexivity).
  assert (2 * microseconds_per_second ≤ 2500000 - 0)%Z as Hlate
    by (vm_compute; discriminate).
  assert (0 < length (heap busy)) as Ha by (vm_compute; lia).
  assert (WorkflowQueue.queue (queue busy) = [0]) as Hqueue
    by (vm_compute; reflexivity).
  assert (draining busy = None) as Hidle by (vm_compute; reflexivity).
  assert (size (WorkflowQueue.running_workflows (queue busy))
          < WorkflowQueue.max_concurrent (queue busy)) as Hslot
    by (vm_compute; lia).
  destruct (timed_out_execution_is_still_dispatched busy 0 0%Z 2%Z 2500000%Z []
              Hwait Hlate Ha Hqueue Hidle Hslot) as (_ & _ & _ & Htaken & _).
  split; [exact Hwait|exact Htaken].
Defined.

(** ** Ties and late records in a full history *)

Section newcomer.
  Context {A : Type} (key : A → Z).




Lemma kept_keeps_newcomer l a x :
  length l = max_executions_per_type →
  x ∈ l → (key x < key a)%Z →
  a ∈ kept key (l ++ [a]).
Proof.
  intros Hlen Hx Hnewer.
  pose proof (kept_evicted_Permutation key (l ++ [a])) as Hperm.
  assert (length (evicted key (l ++ [a])) = 1) as Hone.
  { apply Permutation_length in Hperm.
    rewrite length_app, kept_length, !length_app, Hlen in Hperm.
    cbn [length] in Hperm. lia. }
  destruct (evicted key (l ++ [a])) as [|e [|? ?]] eqn:Hev; try done.
  assert (a ∈ kept key (l ++ [a]) ++ [e]) as Ha
    by (rewrite Hperm; set_solver).
  apply elem_of_app in Ha as [?|Hae%list_elem_of_singleton]; [done|].
  exfalso. subst e.
  assert (x ∈ kept key (l ++ [a]) ++ [a]) as Hx'
    by (rewrite Hperm; set_solver).
  apply elem_of_app in Hx' as [Hx'|Hxa%list_elem_of_singleton];
    [|subst x; lia].
  pose proof (evicted_oldest key (l ++ [a]) a x) as Hle.
  rewrite Hev in Hle. specialize (Hle ltac:(by left) Hx'). lia.
Qed.

End newcomer.



(** X6. When the history of a workflow type is full, an execution
    that is newer than at least one recorded execution is recorded, and
    the history stays at 1000 entries. *)
Theorem full_history_keeps_newer_record
    (m : t) (a x : addr) (k : WorkflowType) :
  workflow_type (obj m a) = k →
  length (ledger m k) = 1000 →
  x ∈ ledger m k →
  (submitted m x < submitted m a)%Z →
  a ∈ ledger (_update_metrics m a) k
  ∧ length (ledger (_update_metrics m a) k) = 1000.
Proof.
  intros Hk Hfull Hx Hnewer.
  rewrite update_metrics_ledger, decide_True by done. split.
  - by eapply kept_keeps_newcomer.
  - rewrite kept_length, length_app, Hfull. done.
Qed.

Lemma full_history_keeps_newer_record_witness :
  1 ∈ ledger full_house CUSTOMER_ANALYSIS
  ∧ 1001 ∈ ledger (_update_metrics full_house 1001) CUSTOMER_ANALYSIS.
Proof.
  assert (workflow_type (obj full_house 1001) = CUSTOMER_ANALYSIS) as Hk
    by reflexivity.
  assert (length (ledger full_house CUSTOMER_ANALYSIS) = 1000) as Hfull
    by (vm_compute; reflexivity).
  assert (1 ∈ ledger full_house CUSTOMER_ANALYSIS) as Hx.
  { apply (bool_decide_unpack _). vm_compute. exact I. }
  assert (submitted full_house 1 < submitted full_house 1001)%Z as Hnewer
    by (vm_compute; reflexivity).
  destruct (full_history_keeps_newer_record full_house 1001 1
              CUSTOMER_ANALYSIS Hk Hfull Hx Hnewer) as [Hin _].
  split; [exact Hx|exact Hin].
Defined.

(** ** What is recorded, and when *)

Lemma update_metrics_reply m c :
  let m' := _update_metrics m c in
  let k := workflow_type (obj m c) in
  ledger m' k = kept (submitted m) (ledger m k ++ [c])
  ∧ (∀ k', k' ≠ k → ledger m' k' = ledger m k').
Proof.
  cbn zeta. split.
  - by rewrite update_metrics_ledger, decide_True.
  - intros k' Hk'. by rewrite update_metrics_ledger, decide_False.
Qed.

Lemma poll_reply m b start_time timeout now ref r :
  (poll m b start_time timeout now).2 = Some (Returned ref r) →
  let m' := (poll m b start_time timeout now).1 in
  ∃ c, ref = Some c
       ∧ r = obj m' c
       ∧ ledger m' (workflow_type r)
         = kept (submitted m') (ledger m (workflow_type r) ++ [c])
       ∧ (∀ k', k' ≠ workflow_type r → ledger m' k' = ledger m k').
Proof.
  assert (∀ timeout', (expire m b timeout' now).2 = Some (Returned ref r) →
    let m' := (expire m b timeout' now).1 in
    ∃ c, ref = Some c ∧ r = obj m' c
         ∧ ledger m' (workflow_type r)
           = kept (submitted m') (ledger m (workflow_type r) ++ [c])
         ∧ (∀ k', k' ≠ workflow_type r → ledger m' k' = ledger m k'))
    as Hexpire.
  { intros timeout'. unfold expire. cbn [fst snd]. intros [= <- <-].
    exists b. split; [done|]. split; [done|].
    apply (update_metrics_reply (set_heap m _) b). }
  unfold poll.
  destruct (_ <? _)%Z; [|by apply Hexpire].
  destruct (WorkflowQueue.completed_workflows _ !! _) as [c|].
  { cbn [fst snd]. intros [= <- <-]. exists c. split; [done|]. split; [done|].
    apply (update_metrics_reply m c). }
  destruct (bool_decide (_ ∈ WorkflowQueue.running_workflows _)); [done|].
  destruct (bool_decide _); [done|]. by apply Hexpire.
Qed.

Lemma poll_silent m b start_time timeout now :
  (poll m b start_time timeout now).2 = None →
  metrics_store (poll m b start_time timeout now).1 = metrics_store m.
Proof.
  unfold poll, expire.
  destruct (_ <? _)%Z; [|done].
  destruct (WorkflowQueue.completed_workflows _ !! _); [done|].
  destruct (bool_decide (_ ∈ WorkflowQueue.running_workflows _)); [done|].
  by destruct (bool_decide _).
Qed.

(** X7. The metrics store is written exactly when a submission that
    was taken into the queue returns: the execution handed back to the caller is
    appended to the history of its workflow type (which is then cut to
    the 1000 newest), and the other histories stay as they are; a step
    that returns nothing and is no cleanup leaves the store alone. *)
Theorem metrics_store_written_on_return
    (m : t) (ev silent : Event) (c : addr) (r : WorkflowExecution) :
  (step m ev).2 = Some (Returned (Some c) r) →
  (step m silent).2 = None →
  (∀ days now, silent ≠ Cleanup days now) →
  let m' := (step m ev).1 in
  r = obj m' c
  ∧ ledger m' (workflow_type r)
    = kept (submitted m') (ledger m (workflow_type r) ++ [c])
  ∧ (∀ k', k' ≠ workflow_type r → ledger m' k' = ledger m k')
  ∧ metrics_store (step m silent).1 = metrics_store m.
Proof.
  intros Hreply Hsilent Hclean. cbn zeta.
  assert (r = obj (step m ev).1 c
          ∧ ledger (step m ev).1 (workflow_type r)
            = kept (submitted (step m ev).1) (ledger m (workflow_type r) ++ [c])
          ∧ (∀ k', k' ≠ workflow_type r → ledger (step m ev).1 k' = ledger m k'))
    as (? & ? & ?).
  { destruct ev as [wt data pr cid tmo uid now|b now| |outcome now|days now];
      cbn [step] in *.
    - unfold execute_workflow in *.
      destruct (WorkflowQueue.add_workflow _ _) as [[] q]; [|done].
      apply poll_reply in Hreply as (c' & [= <-] & Hr & Hk & Hother).
      done.
    - destruct (waiting m !! b) as [[s t]|]; [|done].
      apply poll_reply in Hreply as (c' & [= <-] & Hr & Hk & Hother).
      done.
    - by destruct (draining m).
    - by destruct (draining m).
    - done. }
  split_and!; [done..|].
  destruct silent as [wt data pr cid tmo uid now|b now| |outcome now|days now];
    cbn [step] in *.
  - unfold execute_workflow in *.
    destruct (WorkflowQueue.add_workflow _ _) as [[] q]; [|done].
    by rewrite poll_silent.
  - destruct (waiting m !! b) as [[s t]|]; [|done]. by rewrite poll_silent.
  - destruct (draining m); [done|]. unfold drain_next.
    by destruct (WorkflowQueue.get_next_workflow _) as [[] ?].
  - by destruct (draining m).
  - by destruct (Hclean days now).
Qed.

Lemma metrics_store_written_on_return_witness :
  (∃ r, (step busy (Wake 0 2500000%Z)).2 = Some (Returned (Some 0) r))
  ∧ ledger (step busy (Wake 0 2500000%Z)).1 CUSTOMER_ANALYSIS
    = kept (submitted (step busy (Wake 0 2500000%Z)).1)
        (ledger busy CUSTOMER_ANALYSIS ++ [0]).
Proof.
  assert ((step busy (Wake 0 2500000%Z)).2
          = Some (Returned (Some 0) (obj (step busy (Wake 0 2500000%Z)).1 0)))
    as Hreply by (vm_compute; reflexivity).
  assert ((step busy DrainNext).2 = None) as Hsilent by reflexivity.
  assert (∀ days now, DrainNext ≠ Cleanup days now) as Hclean
    by (intros; discriminate).
  destruct (metrics_store_written_on_return busy (Wake 0 2500000%Z) DrainNext
              0 _ Hreply Hsilent Hclean) as (_ & Hledger & _).
  split; [by eexists|exact Hledger].
Defined.

(** ** Trigger configurations *)

(** X8. Triggers are kept by name: after [add_automated_trigger] the
    name maps to the new configuration, whatever it mapped to before,
    and the other names are untouched; removing the name then reports
    [True] and, if the name was free before the addition, gives back
    the configurations as they were; removing a name that is not
    configured reports [False] and changes nothing. *)
Theorem triggers_are_kept_by_name
    (m : t) (c c' : WorkflowTriggerConfig) (name free : string) :
  trigger_name c' = trigger_name c →
  name ≠ trigger_name c →
  trigger_configs m !! free = None →
  let added := add_automated_trigger m c in
  trigger_configs added !! trigger_name c = Some c
  ∧ trigger_configs added !! name = trigger_configs m !! name
  ∧ trigger_configs (add_automated_trigger added c') = trigger_configs
      (add_automated_trigger m c')
  ∧ (remove_automated_trigger added (trigger_name c)).1 = true
  ∧ trigger_configs (remove_automated_trigger added (trigger_name c)).2
    = delete (trigger_name c) (trigger_configs m)
  ∧ (trigger_configs m !! trigger_name c = None →
     trigger_configs (remove_automated_trigger added (trigger_name c)).2
     = trigger_configs m)
  ∧ (remove_automated_trigger m free).1 = false
  ∧ trigger_configs (remove_automated_trigger m free).2 = trigger_configs m.
Proof.
  intros Hsame Hname Hfree. cbn zeta.
  unfold add_automated_trigger, remove_automated_trigger.
  cbn [fst snd trigger_configs set_trigger_configs]. split_and!.
  - apply lookup_insert_eq.
  - by apply lookup_insert_ne.
  - rewrite Hsame. apply insert_insert_eq.
  - apply bool_decide_eq_true. rewrite lookup_insert_eq. by eexists.
  - apply delete_insert_eq.
  - intros Hnew. rewrite delete_insert_eq. by apply delete_id.
  - apply bool_decide_eq_false. rewrite Hfree. by intros [? ?].
  - by apply delete_id.
Qed.

Lemma triggers_are_kept_by_name_witness :
  trigger_configs init !! "nightly" = None
  ∧ trigger_configs
      (add_automated_trigger (add_automated_trigger init rate_limited_trigger)
         replacement_trigger)
    = trigger_configs (add_automated_trigger init replacement_trigger).
Proof.
  assert (trigger_name replacement_trigger = trigger_name rate_limited_trigger)
    as Hsame by reflexivity.
  assert ("nightly" ≠ trigger_name rate_limited_trigger) as Hname
    by discriminate.
  assert (trigger_configs init !! "nightly" = None) as Hfree by reflexivity.
  destruct (triggers_are_kept_by_name init rate_limited_trigger
              replacement_trigger "nightly" "nightly" Hsame Hname Hfree)
    as (_ & _ & Hlast & _).
  split; [exact Hfree|exact Hlast].
Defined.

(** ** The batch tool of the server *)

Lemma WorkflowType_of_value_value wt :
  Server.WorkflowType_of_value (WorkflowType_value wt) = Some wt.
Proof. by destruct wt. Qed.

Lemma WorkflowType_of_value_Some s wt :
  Server.WorkflowType_of_value s = Some wt → s = WorkflowType_value wt.
Proof.
  unfold Server.WorkflowType_of_value.
  repeat case_decide; intros [= <-]; by subst.
Qed.

Lemma convert_individual_data_lookup (d : gmap string Payload) wt :
  Server.convert_individual_data d !! wt = d !! WorkflowType_value wt.
Proof.
  unfold Server.convert_individual_data.
  apply (map_fold_weak_ind
    (λ (typed : gmap WorkflowType Payload) (d : gmap string Payload),
       typed !! wt = d !! WorkflowType_value wt)).
  { by rewrite !lookup_empty. }
  intros s data d' typed Hs IH.
  destruct (Server.WorkflowType_of_value s) as [wt'|] eqn:Hparse.
  - apply WorkflowType_of_value_Some in Hparse as ->.
    destruct (decide (wt' = wt)) as [->|Hne].
    + by rewrite !lookup_insert_eq.
    + rewrite !lookup_insert_ne; [done| |done].
      intros Heq. apply Hne.
      apply (f_equal Server.WorkflowType_of_value) in Heq.
      rewrite !WorkflowType_of_value_value in Heq. by simplify_eq.
  - rewrite lookup_insert_ne; [done|].
    intros ->. by rewrite WorkflowType_of_value_value in Hparse.
Qed.

(** X9. The server turns the string keys of [individual_data] into
    workflow types by their value: [WorkflowType(t.value)] is [t], a
    string is accepted only if it is the value of a type, the data
    given under a type's value reaches exactly that type, and entries
    under any other string are dropped without an error. Before the
    manager is initialized the tool raises [RuntimeError]. *)
Theorem server_converts_individual_data_by_value
    {World : Type} `{Runtime World}
    (individual_data : gmap string Payload) (wt : WorkflowType) (s : string)
    (workflows : list WorkflowType) (shared_data : Payload) (delay : Z)
    (fail_fast : bool) (cid : option string) (w : World) :
  Server.WorkflowType_of_value (WorkflowType_value wt) = Some wt
  ∧ (Server.WorkflowType_of_value s = Some wt ↔ s = WorkflowType_value wt)
  ∧ Server.convert_individual_data individual_data !! wt
    = individual_data !! WorkflowType_value wt
  ∧ (Server.WorkflowType_of_value s = None →
     Server.convert_individual_data (<[s := shared_data]> individual_data)
     = Server.convert_individual_data individual_data)
  ∧ (Server.execute_batch_workflows None workflows shared_data individual_data
       delay fail_fast cid).1
    = Raised (RuntimeError "Workflow manager not initialized")
  ∧ (Server.execute_batch_workflows (Some w) workflows shared_data
       individual_data delay fail_fast cid).1
    = (execute_batch_workflows
         (mkBatchRequest workflows shared_data
            (Server.convert_individual_data individual_data) delay fail_fast cid)
         w).1.
Proof.
  split_and!.
  - apply WorkflowType_of_value_value.
  - split; [apply WorkflowType_of_value_Some|].
    intros ->. apply WorkflowType_of_value_value.
  - apply convert_individual_data_lookup.
  - intros Hnone. apply map_eq. intros wt'.
    rewrite !convert_individual_data_lookup. apply lookup_insert_ne.
    intros ->. by rewrite WorkflowType_of_value_value in Hnone.
  - done.
  - unfold Server.execute_batch_workflows.
    by destruct (execute_batch_workflows _ w).
Qed.

Lemma server_converts_individual_data_by_value_witness :
  Server.WorkflowType_of_value "customer_analysis" = None
  ∧ Server.convert_individual_data mixed_individual_data !! CUSTOMER_ANALYSIS
    = Some {[ "analysisType" := VStr "photo" ]}.
Proof.
  assert (Server.WorkflowType_of_value "customer_analysis" = None) as Hnone
    by reflexivity.
  destruct (@server_converts_individual_data_by_value Schedule.Loop _
              mixed_individual_data CUSTOMER_ANALYSIS "customer_analysis"
              [] ∅ 0 false None (Schedule.start failing_first))
    as (_ & _ & Hlookup & _).
  split; [exact Hnone|].
  rewrite Hlookup. vm_compute. reflexivity.
Defined.

(** ** Batches in parallel mode, and empty batches *)

Section parallel_batches.
  Context {World : Type} `{Runtime World}.

Lemma prepare_tasks_parallel req bid i kinds acc (w : World) :
  fail_fast req = false →
  prepare_tasks req bid i kinds acc w
  = (Ok (acc ++ fresh_tasks req bid i kinds),
     Nat.iter (pauses req i kinds)
       (rt_sleep (Q2Qc (delay_between_workflows req # 1000))) w).
Proof.
  intros Hff. revert i acc w.
  induction kinds as [|wt rest IH]; intros i acc w.
  { unfold pauses. cbn. rewrite app_nil_r.
    by destruct (0 <? _)%Z, i. }
  cbn [prepare_tasks fresh_tasks]. rewrite Hff, IH.
  rewrite <-app_assoc. f_equal.
  unfold pauses. cbn [length].
  destruct (0 <? delay_between_workflows req)%Z; [|done].
  destruct i as [|i].
  - change (0 <? 1) with true. change (0 <? 0) with false. cbn [andb].
    by replace (S (length rest) - 1) with (length rest) by lia.
  - change (0 <? S (S i)) with true. change (0 <? S i) with true. cbn [andb].
    by rewrite Nat.iter_succ_r.
Qed.

Lemma process_results_spec (results : list (Result WorkflowExecution))
    records successful failed :
  process_results results records successful failed
  = (records ++ returned_records results,
     successful + completed_count_of (returned_records results),
     failed + failed_count_of (returned_records results) + raised_count results).
Proof.
  revert records successful failed.
  induction results as [|[e|x] results IH]; intros records successful failed.
  - cbn. by rewrite app_nil_r, !Nat.add_0_r.
  - cbn [process_results]. rewrite IH.
    change (returned_records (Ok e :: results))
      with (e :: returned_records results).
    unfold completed_count_of, failed_count_of, raised_count.
    rewrite !filter_cons, <-app_assoc.
    destruct (decide (status e = COMPLETED)) as [Hst|Hst].
    + rewrite bool_decide_eq_true_2 by done.
      rewrite (decide_False (P := status e ∈ [FAILED; TIMEOUT]))
        by (rewrite Hst; by apply (bool_decide_unpack _)).
      rewrite (decide_False (P := record_of (Ok e) = None)) by done.
      cbn [length app]. apply pair_equal_spec; split; [apply pair_equal_spec; split|]; (done || lia).
    + rewrite (bool_decide_eq_false_2 (status e = COMPLETED)) by done.
      rewrite (decide_False (P := record_of (Ok e) = None)) by done.
      destruct (decide (status e ∈ [FAILED; TIMEOUT])).
      * rewrite bool_decide_eq_true_2 by done.
        cbn [length app]. apply pair_equal_spec; split; [apply pair_equal_spec; split|]; (done || lia).
      * rewrite bool_decide_eq_false_2 by done.
        cbn [length app]. apply pair_equal_spec; split; [apply pair_equal_spec; split|]; (done || lia).
  - cbn [process_results]. rewrite IH.
    change (returned_records (Raised x :: results))
      with (returned_records results).
    unfold raised_count. rewrite filter_cons, decide_True by done.
    cbn [length]. apply pair_equal_spec; split; [apply pair_equal_spec; split|]; (done || lia).
Qed.

Lemma length_filter_cons {A} (P : A → Prop) `{∀ x, Decision (P x)} x l :
  length (filter P (x :: l))
  = (if decide (P x) then 1 else 0) + length (filter P l).
Proof. rewrite filter_cons. by destruct (decide (P x)). Qed.

Lemma status_counted_once (s : WorkflowStatus) :
  (if decide (s = COMPLETED) then 1 else 0)
  + (if decide (s ∈ [FAILED; TIMEOUT]) then 1 else 0)
  + (if decide (s ∈ [PENDING; RUNNING; CANCELLED]) then 1 else 0) = 1.
Proof. by destruct s. Qed.

Lemma statuses_partition (l : list WorkflowExecution) :
  completed_count_of l + failed_count_of l + uncounted_count_of l = length l.
Proof.
  unfold completed_count_of, failed_count_of, uncounted_count_of.
  induction l as [|e l IH]; [done|].
  rewrite !length_filter_cons. cbn [length].
  pose proof (status_counted_once (status e)). lia.
Qed.

Lemma returned_records_length (results : list (Result WorkflowExecution)) :
  length (returned_records results) + raised_count results = length results.
Proof.
  unfold returned_records, raised_count.
  induction results as [|[e|x] results IH]; [done|..].
  - rewrite filter_cons, decide_False by done.
    change (omap _ (Ok e :: results)) with (e :: returned_records results).
    cbn [length]. unfold returned_records. lia.
  - rewrite filter_cons, decide_True by done.
    change (omap _ (Raised x :: results)) with (returned_records results).
    cbn [length]. unfold returned_records. lia.
Qed.

End parallel_batches.

Lemma fresh_tasks_lookup req bid i kinds j :
  fresh_tasks req bid i kinds !! j
  = (λ wt, mkCoroutine wt (workflow_data req bid (i + j) wt) (Some bid) false)
      <$> kinds !! j.
Proof.
  revert i j. induction kinds as [|wt rest IH]; intros i j; [done|].
  destruct j as [|j]; cbn [fresh_tasks].
  - by rewrite Nat.add_0_r.
  - cbn. rewrite IH. by replace (S i + j) with (i + S j) by lia.
Qed.

Lemma fresh_tasks_length req bid i kinds :
  length (fresh_tasks req bid i kinds) = length kinds.
Proof.
  revert i. induction kinds as [|wt rest IH]; intros i; [done|].
  cbn. by rewrite IH.
Qed.

(** X10. In parallel mode ([fail_fast] off) the first loop of a batch
    starts no workflow: it makes one coroutine per workflow of the
    request, in order, the one of index [j] carrying [batchIndex = j],
    and serves all the pauses, one per workflow after the first when
    the delay is positive; the workflows are then started together by
    the [gather], so that the delay postpones the batch and does not
    space its workflows. *)
Theorem parallel_batch_pauses_before_it_starts
    {World : Type} `{Runtime World}
    (req : BatchWorkflowRequest) (bid : string) (w : World) :
  fail_fast req = false →
  let tasks := fresh_tasks req bid 0 (workflows req) in
  prepare_tasks req bid 0 (workflows req) [] w
  = (Ok tasks,
     Nat.iter (pauses req 0 (workflows req))
       (rt_sleep (Q2Qc (delay_between_workflows req # 1000))) w)
  ∧ length tasks = length (workflows req)
  ∧ (∀ j wt, workflows req !! j = Some wt →
       tasks !! j
       = Some (mkCoroutine wt (workflow_data req bid j wt) (Some bid) false))
  ∧ pauses req 0 (workflows req)
    = (if (0 <? delay_between_workflows req)%Z
       then length (workflows req) - 1 else 0).
Proof.
  intros Hff. cbn zeta. split_and!.
  - by rewrite prepare_tasks_parallel.
  - apply fresh_tasks_length.
  - intros j wt Hj. by rewrite fresh_tasks_lookup, Hj.
  - done.
Qed.

Lemma parallel_batch_pauses_before_it_starts_witness :
  fail_fast parallel_batch = false
  ∧ (prepare_tasks parallel_batch "nightly" 0 (workflows parallel_batch) []
       (Schedule.start failing_first)).2
    = Nat.iter 2 (Schedule.sleep (Q2Qc (250 # 1000)))
        (Schedule.start failing_first).
Proof.
  assert (fail_fast parallel_batch = false) as Hff by reflexivity.
  destruct (@parallel_batch_pauses_before_it_starts Schedule.Loop _
              parallel_batch "nightly" (Schedule.start failing_first) Hff)
    as (Hprepare & _).
  split; [exact Hff|].
  rewrite Hprepare. reflexivity.
Defined.

(** X11. The payload of a workflow of a batch is made of the shared
    data, overridden by the individual data of its type, overridden by
    the batch metadata: [batchId], [batchIndex] and [batchTotal] are the
    batch's own whatever the caller put under these keys. *)
Theorem batch_payload_precedence
    (req : BatchWorkflowRequest) (bid : string) (i : nat)
    (wt : WorkflowType) (key : string) :
  key ≠ "batchId" → key ≠ "batchIndex" → key ≠ "batchTotal" →
  workflow_data req bid i wt !! "batchId" = Some (VStr bid)
  ∧ workflow_data req bid i wt !! "batchIndex" = Some (VInt (Z.of_nat i))
  ∧ workflow_data req bid i wt !! "batchTotal"
    = Some (VInt (Z.of_nat (length (workflows req))))
  ∧ workflow_data req bid i wt !! key
    = match individual_data req !! wt with
      | Some own =>
          match own !! key with
          | Some v => Some v
          | None => shared_data req !! key
          end
      | None => shared_data req !! key
      end.
Proof.
  intros Hid Hindex Htotal. unfold workflow_data. split_and!.
  - rewrite lookup_insert_ne, lookup_insert_ne by done. apply lookup_insert_eq.
  - rewrite lookup_insert_ne by done. apply lookup_insert_eq.
  - apply lookup_insert_eq.
  - rewrite !lookup_insert_ne by done.
    destruct (individual_data req !! wt) as [own|]; [|done].
    destruct (own !! key) as [v|] eqn:Hown.
    + by apply lookup_union_Some_l.
    + by apply lookup_union_r.
Qed.

Lemma batch_payload_precedence_witness :
  workflow_data parallel_batch "nightly" 1 FOLLOW_UP_SEQUENCES !! "batchId"
  = Some (VStr "nightly")
  ∧ workflow_data parallel_batch "nightly" 1 FOLLOW_UP_SEQUENCES !! "source"
    = Some (VStr "follow-up").
Proof.
  assert ("source" ≠ "batchId") as Hid by discriminate.
  assert ("source" ≠ "batchIndex") as Hindex by discriminate.
  assert ("source" ≠ "batchTotal") as Htotal by discriminate.
  destruct (batch_payload_precedence parallel_batch "nightly" 1
              FOLLOW_UP_SEQUENCES "source" Hid Hindex Htotal)
    as (Hbatch & _ & _ & Hsource).
  split; [exact Hbatch|].
  rewrite Hsource. reflexivity.
Defined.

(** X12. In parallel mode [execute_batch_workflows] returns a result
    whatever the workflows did: the total is the number of workflows
    asked for, the execution results are the records the [gather]
    gave, the successes are the [COMPLETED] ones, the failures the
    [FAILED] and [TIMEOUT] ones plus the exceptions; a record that is
    [PENDING], [RUNNING] or [CANCELLED] is listed and counted as
    neither, so that successes and failures need not add up to the
    total. *)
Theorem parallel_batch_counts
    {World : Type} `{Runtime World} (req : BatchWorkflowRequest) (w : World) :
  fail_fast req = false →
  ∃ b,
    execute_batch_workflows req w = (Ok b, (gathered req w).2)
    ∧ batch_id b = (batch_identity req w).1
    ∧ total_workflows b = length (workflows req)
    ∧ execution_results b = returned_records (gathered req w).1
    ∧ successful_workflows b = completed_count_of (execution_results b)
    ∧ failed_workflows b
      = failed_count_of (execution_results b) + raised_count (gathered req w).1
    ∧ successful_workflows b + failed_workflows b
      + uncounted_count_of (execution_results b)
      = length (gathered req w).1.
Proof.
  intros Hff. unfold execute_batch_workflows, gathered, after_pauses.
  fold (batch_identity req w).
  destruct (batch_identity req w) as [bid w0]. cbn [fst snd].
  rewrite prepare_tasks_parallel, Hff by done. cbn [app].
  destruct (rt_gather _ _) as [results w2]. cbn [fst snd].
  rewrite process_results_spec. cbn [app].
  eexists. split; [reflexivity|].
  cbn [batch_id total_workflows execution_results successful_workflows
    failed_workflows]. split_and!; try done.
  pose proof (statuses_partition (returned_records results)).
  pose proof (returned_records_length results). lia.
Qed.

Lemma parallel_batch_counts_witness :
  fail_fast parallel_batch = false
  ∧ ∃ b, (execute_batch_workflows parallel_batch (Schedule.start failing_first)).1
         = Ok b
         ∧ total_workflows b = 3.
Proof.
  assert (fail_fast parallel_batch = false) as Hff by reflexivity.
  destruct (@parallel_batch_counts Schedule.Loop _ parallel_batch
              (Schedule.start failing_first) Hff)
    as (b & Hb & _ & Htotal & _).
  split; [exact Hff|].
  exists b. rewrite Hb. split; [reflexivity|exact Htotal].
Defined.

(** X13. With [fail_fast] a batch returns a result only if it is
    empty: the empty batch gives a result with no record and zero
    counts, and every other one raises. *)
Theorem fail_fast_batch_returns_only_if_empty
    {World : Type} `{Runtime World} (req : BatchWorkflowRequest) (w : World) :
  fail_fast req = true →
  ((∃ b, (execute_batch_workflows req w).1 = Ok b) ↔ workflows req = [])
  ∧ (workflows req = [] →
     ∃ b, (execute_batch_workflows req w).1 = Ok b
          ∧ total_workflows b = 0
          ∧ successful_workflows b = 0
          ∧ failed_workflows b = 0
          ∧ execution_results b = []).
Proof.
  intros Hff.
  assert (workflows req = [] →
          ∃ b, (execute_batch_workflows req w).1 = Ok b
               ∧ total_workflows b = 0 ∧ successful_workflows b = 0
               ∧ failed_workflows b = 0 ∧ execution_results b = [])
    as Hempty.
  { intros Hnil. unfold execute_batch_workflows.
    destruct (if truthy_str (b_correlation_id req) then _ else _) as [bid w0].
    rewrite Hnil, Hff. cbn. by eexists. }
  split; [|done]. split.
  - intros [b Hb]. destruct (workflows req) as [|wt rest] eqn:Hkinds; [done|].
    rewrite execute_batch_workflows_fail_fast in Hb; [done..|].
    by rewrite Hkinds.
  - intros Hnil. destruct (Hempty Hnil) as (b & Hb & _). by exists b.
Qed.

Lemma fail_fast_batch_returns_only_if_empty_witness :
  fail_fast empty_batch = true
  ∧ ∃ b, (execute_batch_workflows empty_batch (Schedule.start failing_first)).1
         = Ok b.
Proof.
  assert (fail_fast empty_batch = true) as Hff by reflexivity.
  destruct (@fail_fast_batch_returns_only_if_empty Schedule.Loop _ empty_batch
              (Schedule.start failing_first) Hff) as [[_ Hback] _].
  split; [exact Hff|]. apply Hback. reflexivity.
Defined.

(** ** What the caller of [execute_workflow] gets *)

Lemma obj_update_metrics m a b : obj (_update_metrics m a) b = obj m b.
Proof. done. Qed.

Lemma cleanup_frame m days now :
  let m' := cleanup_old_executions m days now in
  heap m' = heap m
  ∧ waiting m' = waiting m
  ∧ draining m' = draining m
  ∧ trigger_configs m' = trigger_configs m
  ∧ WorkflowQueue.queue (queue m') = WorkflowQueue.queue (queue m)
  ∧ WorkflowQueue.running_workflows (queue m')
    = WorkflowQueue.running_workflows (queue m)
  ∧ WorkflowQueue.maxlen (queue m') = WorkflowQueue.maxlen (queue m)
  ∧ WorkflowQueue.max_concurrent (queue m')
    = WorkflowQueue.max_concurrent (queue m).
Proof. done. Qed.

Lemma poll_lost m a start_time timeout now :
  a < length (heap m) →
  WorkflowQueue.completed_workflows (queue m) !! execution_id (obj m a) = None →
  execution_id (obj m a) ∉ WorkflowQueue.running_workflows (queue m) →
  obj m a ∉ (obj m <$> WorkflowQueue.queue (queue m)) →
  (poll m a start_time timeout now).2
  = Some (Returned (Some a)
            (set_failure (obj m a) TIMEOUT (timeout_message timeout) now)).
Proof.
  intros Ha Hdone Hrun Hqueue.
  assert ((expire m a timeout now).2
          = Some (Returned (Some a)
                    (set_failure (obj m a) TIMEOUT (timeout_message timeout) now)))
    as Hexpire.
  { unfold expire. cbn [snd]. do 2 f_equal. exact (obj_expire m a timeout now Ha). }
  unfold poll. destruct (_ <? _)%Z; [|done].
  by rewrite Hdone, bool_decide_eq_false_2, bool_decide_eq_false_2.
Qed.

(** X14. The answer of the gateway reaches the caller: when the drain
    loop has written the outcome of the gateway call on the execution
    and the caller wakes up before its timeout, [execute_workflow]
    returns that very execution with the gateway's status, output,
    error, completion time and duration, or, if the gateway call
    raised, as [FAILED] with the message [Execution failed: ...] and
    the time since the submission as its duration; the call is over. *)
Theorem gateway_outcome_reaches_the_caller
    (m : t) (a : addr) (start_time timeout finished now : Z)
    (outcome : GatewayOutcome) :
  draining m = Some a →
  a < length (heap m) →
  waiting m !! a = Some (start_time, timeout) →
  (now - start_time < timeout * microseconds_per_second)%Z →
  let m1 := (step m (DrainDone outcome finished)).1 in
  let m2 := (step m1 (Wake a now)).1 in
  (step m1 (Wake a now)).2
  = Some (Returned (Some a)
            match outcome with
            | GwResult result => copy_result (obj m a) result
            | GwException text => set_exception (obj m a) text finished
            end)
  ∧ waiting m2 !! a = None
  ∧ draining m2 = None
  ∧ (execution_id (obj m a) ∉ WorkflowQueue.running_workflows (queue m2))
  ∧ match outcome with
    | GwResult result => status (obj m2 a) = status result
    | GwException text =>
        status (obj m2 a) = FAILED
        ∧ error_message (obj m2 a) = Some ("Execution failed: " +:+ text)
        ∧ duration_seconds (obj m2 a)
          = Some (total_seconds (finished - started_at (obj m a)))
    end.
Proof.
  intros Hdrain Ha Hwait Htime. cbn zeta. cbn [step]. rewrite Hdrain. cbn [fst].
  set (written := match outcome with
                  | GwResult result => copy_result (obj m a) result
                  | GwException text => set_exception (obj m a) text finished
                  end).
  set (m1 := drain_done m a outcome finished).
  assert (obj m1 a = written) as Hobj.
  { unfold m1, drain_done, obj. cbn [heap set_draining set_queue set_heap].
    by rewrite list_lookup_total_insert_eq. }
  assert (execution_id written = execution_id (obj m a)) as Hid
    by (by unfold written; destruct outcome).
  assert (WorkflowQueue.completed_workflows (queue m1) !! execution_id (obj m1 a)
          = Some a) as Hdone.
  { rewrite Hobj. unfold m1, drain_done.
    cbn [queue set_draining set_queue WorkflowQueue.mark_completed
      WorkflowQueue.completed_workflows WorkflowQueue.set_completed].
    fold (obj (set_heap m (<[a:=written]> (heap m))) a).
    fold m1 in Hobj.
    replace (obj (set_heap m (<[a:=written]> (heap m))) a) with written
      by (unfold obj; cbn [heap set_heap];
          by rewrite list_lookup_total_insert_eq).
    apply lookup_insert_eq. }
  change (waiting m1) with (waiting m). rewrite Hwait.
  unfold poll. apply Z.ltb_lt in Htime. rewrite Htime, Hdone. cbn [fst snd].
  rewrite !obj_update_metrics, Hobj.
  split_and!.
  - done.
  - cbn [waiting set_waiting]. apply lookup_delete_eq.
  - done.
  - unfold m1, drain_done.
    cbn [queue set_waiting _update_metrics set_metrics_store set_draining
      set_queue WorkflowQueue.mark_completed WorkflowQueue.running_workflows
      WorkflowQueue.set_completed WorkflowQueue.set_running].
    fold (obj (set_heap m (<[a:=written]> (heap m))) a).
    replace (obj (set_heap m (<[a:=written]> (heap m))) a) with written
      by (unfold obj; cbn [heap set_heap];
          by rewrite list_lookup_total_insert_eq).
    rewrite Hid. apply not_elem_of_difference. right. by apply elem_of_singleton.
  - change (obj (set_waiting (_update_metrics m1 a)
                   (delete a (waiting (_update_metrics m1 a)))) a)
      with (obj m1 a).
    rewrite Hobj. unfold written. by destruct outcome.
Qed.

Lemma gateway_outcome_reaches_the_caller_witness :
  draining in_flight = Some 0
  ∧ ∃ r, (step (step in_flight (DrainDone (GwException "connection reset")
                                  1000000%Z)).1
               (Wake 0 1500000%Z)).2
         = Some (Returned (Some 0) r)
         ∧ error_message r = Some "Execution failed: connection reset".
Proof.
  assert (draining in_flight = Some 0) as Hdrain by reflexivity.
  assert (0 < length (heap in_flight)) as Ha by (vm_compute; lia).
  assert (waiting in_flight !! 0 = Some (0%Z, 300%Z)) as Hwait
    by (vm_compute; reflexivity).
  assert (1500000 - 0 < 300 * microseconds_per_second)%Z as Htime
    by (vm_compute; reflexivity).
  destruct (gateway_outcome_reaches_the_caller in_flight 0 0 300 1000000
              1500000 (GwException "connection reset") Hdrain Ha Hwait Htime)
    as (Hreply & _).
  split; [exact Hdrain|]. eexists. split; [exact Hreply|reflexivity].
Defined.

(** X15. A cleanup can take the answer away from a caller: when the
    gateway has answered an execution and a cleanup removes it from the
    completed map (it was submitted before the cutoff) before its
    caller has looked, the caller finds it neither completed, nor
    running, nor queued, leaves its loop at once and gets the execution
    as [TIMEOUT], whatever the gateway's status was and however much of
    its timeout is left; without the cleanup it gets the execution as
    the gateway left it. *)
Theorem cleanup_takes_the_answer_from_the_caller
    (m : t) (a : addr) (start_time timeout now : Z) (days cleaned : Z) :
  a < length (heap m) →
  waiting m !! a = Some (start_time, timeout) →
  WorkflowQueue.completed_workflows (queue m) !! execution_id (obj m a) = Some a →
  execution_id (obj m a) ∉ WorkflowQueue.running_workflows (queue m) →
  obj m a ∉ (obj m <$> WorkflowQueue.queue (queue m)) →
  (submitted m a < cutoff days cleaned)%Z →
  (now - start_time < timeout * microseconds_per_second)%Z →
  (step m (Wake a now)).2 = Some (Returned (Some a) (obj m a))
  ∧ (step (step m (Cleanup days cleaned)).1 (Wake a now)).2
    = Some (Returned (Some a)
              (set_failure (obj m a) TIMEOUT (timeout_message timeout) now)).
Proof.
  intros Ha Hwait Hdone Hrun Hqueue Hold Htime. split.
  - cbn [step]. rewrite Hwait. unfold poll.
    apply Z.ltb_lt in Htime. by rewrite Htime, Hdone.
  - cbn [step fst].
    set (m1 := cleanup_old_executions m days cleaned).
    destruct (cleanup_frame m days cleaned)
      as (Hheap & Hw & _ & _ & Hq & Hr & _). fold m1 in Hheap, Hw, Hq, Hr.
    assert (∀ b, obj m1 b = obj m b) as Hobj
      by (intros b; unfold obj; by rewrite Hheap).
    rewrite Hw, Hwait. rewrite <-(Hobj a).
    apply poll_lost.
    + by rewrite Hheap.
    + rewrite Hobj.
      destruct (WorkflowQueue.completed_workflows (queue m1) !! _)
        as [b|] eqn:Hb; [|done].
      apply cleanup_completed in Hb as [Hb Hnew].
      rewrite Hdone in Hb. injection Hb as <-. done.
    + by rewrite Hobj, Hr.
    + rewrite Hq, Hobj.
      by rewrite (list_fmap_ext (obj m1) (obj m) _ (λ _ b _, Hobj b)).
Qed.

Lemma cleanup_takes_the_answer_from_the_caller_witness :
  (∃ r, (step unread (Wake 0 2000000%Z)).2 = Some (Returned (Some 0) r)
        ∧ status r = COMPLETED)
  ∧ (∃ r, (step (step unread (Cleanup 0 1500000%Z)).1 (Wake 0 2000000%Z)).2
          = Some (Returned (Some 0) r)
          ∧ status r = TIMEOUT).
Proof.
  assert (0 < length (heap unread)) as Ha by (vm_compute; lia).
  assert (waiting unread !! 0 = Some (0%Z, 300%Z)) as Hwait
    by (vm_compute; reflexivity).
  assert (WorkflowQueue.completed_workflows (queue unread)
            !! execution_id (obj unread 0) = Some 0) as Hdone
    by (vm_compute; reflexivity).
  assert (execution_id (obj unread 0)
            ∉ WorkflowQueue.running_workflows (queue unread)) as Hrun
    by (apply (bool_decide_unpack _); vm_compute; exact I).
  assert (obj unread 0 ∉ (obj unread <$> WorkflowQueue.queue (queue unread)))
    as Hqueue by (vm_compute; apply not_elem_of_nil).
  assert (submitted unread 0 < cutoff 0 1500000)%Z as Hold
    by (vm_compute; reflexivity).
  assert (2000000 - 0 < 300 * microseconds_per_second)%Z as Htime
    by (vm_compute; reflexivity).
  destruct (cleanup_takes_the_answer_from_the_caller unread 0 0 300 2000000
              0 1500000 Ha Hwait Hdone Hrun Hqueue Hold Htime)
    as [Hplain Hcleaned].
  split; eexists; (split; [eassumption|reflexivity]).
Defined.

(** ** The first turn of the polling loop *)

Section first_turn.

Variables (m : t) (wt : WorkflowType) (data : Payload) (priority : Z)
  (cid : option string) (uid : string) (now : datetime).

Local Abbreviation e := (created wt data cid uid now).
Local Abbreviation ref := (length (heap m)).

Lemma execute_workflow_enqueued tmo :
  length (WorkflowQueue.queue (queue m)) < WorkflowQueue.maxlen (queue m) →
  execute_workflow m wt data priority cid tmo uid now
  = poll (enqueued m e) ref now (effective_timeout tmo) now.
Proof.
  intros Hroom. unfold execute_workflow, WorkflowQueue.add_workflow.
  apply Nat.leb_gt in Hroom. by rewrite Hroom.
Qed.

Lemma obj_enqueued_new : obj (enqueued m e) ref = e.
Proof.
  unfold obj, enqueued. cbn [heap set_queue set_heap].
  rewrite lookup_total_app_r by done. by rewrite Nat.sub_diag.
Qed.

Lemma obj_enqueued_old a : a < ref → obj (enqueued m e) a = obj m a.
Proof.
  intros Ha. unfold obj, enqueued. cbn [heap set_queue set_heap].
  by rewrite lookup_total_app_l.
Qed.

Lemma enqueued_in_queue :
  (obj (enqueued m e) ref)
  ∈ (obj (enqueued m e) <$> WorkflowQueue.queue (queue (enqueued m e))).
Proof.
  apply list_elem_of_fmap. exists ref. split; [done|].
  unfold enqueued. cbn. apply elem_of_app. right.
  by apply list_elem_of_singleton.
Qed.

Lemma poll_queued timeout :
  (0 < timeout)%Z →
  WorkflowQueue.completed_workflows (queue m) !! execution_id e = None →
  poll (enqueued m e) ref now timeout now
  = (set_waiting (enqueued m e)
       (<[ref := (now, timeout)]> (waiting (enqueued m e))), None).
Proof.
  intros Hpos Hfresh. unfold poll.
  assert ((now - now <? timeout * microseconds_per_second)%Z = true) as ->
    by (apply Z.ltb_lt; unfold microseconds_per_second; lia).
  rewrite obj_enqueued_new.
  change (WorkflowQueue.completed_workflows (queue (enqueued m e)))
    with (WorkflowQueue.completed_workflows (queue m)).
  rewrite Hfresh.
  destruct (bool_decide (_ ∈ WorkflowQueue.running_workflows _)); [done|].
  rewrite bool_decide_eq_true_2; [done|].
  rewrite <-obj_enqueued_new at 1. apply enqueued_in_queue.
Qed.

Lemma poll_at_once timeout :
  (timeout < 0)%Z →
  poll (enqueued m e) ref now timeout now = expire (enqueued m e) ref timeout now.
Proof.
  intros Hneg. apply poll_overdue. unfold microseconds_per_second. lia.
Qed.

Lemma poll_reused timeout c :
  (0 < timeout)%Z →
  WorkflowQueue.completed_workflows (queue m) !! execution_id e = Some c →
  poll (enqueued m e) ref now timeout now
  = (set_waiting (_update_metrics (enqueued m e) c)
       (delete ref (waiting (enqueued m e))),
     Some (Returned (Some c) (obj (enqueued m e) c))).
Proof.
  intros Hpos Hold. unfold poll.
  assert ((now - now <? timeout * microseconds_per_second)%Z = true) as ->
    by (apply Z.ltb_lt; unfold microseconds_per_second; lia).
  rewrite obj_enqueued_new.
  change (WorkflowQueue.completed_workflows (queue (enqueued m e)))
    with (WorkflowQueue.completed_workflows (queue m)).
  by rewrite Hold.
Qed.

End first_turn.

(** X16. A timeout override that is not positive: 0 stands for no
    override, so that the call waits up to 300 seconds like a call
    without one; with a negative override the loop is not entered and
    a call that was taken into the queue returns its execution as
    [TIMEOUT] at once, with a message that names the negative number,
    while the execution is left in the queue for the drain loop. *)
Theorem timeout_override_that_is_not_positive
    (m : t) (wt : WorkflowType) (data : Payload) (priority : Z)
    (cid : option string) (uid : string) (now : datetime) (timeout : Z) :
  length (WorkflowQueue.queue (queue m)) < WorkflowQueue.maxlen (queue m) →
  WorkflowQueue.completed_workflows (queue m)
    !! (WorkflowType_value wt +:+ "_" +:+ uid) = None →
  (timeout < 0)%Z →
  let ref := length (heap m) in
  let zero := execute_workflow m wt data priority cid (Some 0%Z) uid now in
  let negative := execute_workflow m wt data priority cid (Some timeout) uid now in
  zero = execute_workflow m wt data priority cid None uid now
  ∧ zero.2 = None
  ∧ waiting zero.1 !! ref = Some (now, 300%Z)
  ∧ negative.2
    = Some (Returned (Some ref)
              (mkExecution (WorkflowType_value wt +:+ "_" +:+ uid) wt TIMEOUT
                 data None (Some (timeout_message timeout)) now (Some now)
                 None None cid 0))
  ∧ status (obj negative.1 ref) = TIMEOUT
  ∧ WorkflowQueue.queue (queue negative.1)
    = WorkflowQueue.queue (queue m) ++ [ref]
  ∧ waiting negative.1 !! ref = None.
Proof.
  intros Hroom Hfresh Hneg. cbn zeta.
  rewrite !execute_workflow_enqueued by done.
  change (effective_timeout (Some 0%Z)) with 300%Z.
  change (effective_timeout None) with 300%Z.
  assert (effective_timeout (Some timeout) = timeout) as ->.
  { unfold effective_timeout, truthy_int.
    by assert ((timeout =? 0)%Z = false) as -> by (apply Z.eqb_neq; lia). }
  rewrite poll_queued, poll_at_once by done.
  set (e := created wt data cid uid now).
  assert (length (heap m) < length (heap (enqueued m e))) as Href
    by (unfold enqueued; cbn; rewrite length_app; cbn; lia).
  pose proof (obj_expire (enqueued m e) (length (heap m)) timeout now Href)
    as Hobj.
  unfold e in Hobj at 2. rewrite obj_enqueued_new in Hobj.
  split_and!; [done|done|apply lookup_insert_eq| | |done|].
  - unfold expire. cbn [snd]. do 2 f_equal. exact Hobj.
  - by rewrite Hobj.
  - unfold expire. cbn [fst waiting set_waiting]. apply lookup_delete_eq.
Qed.

Lemma timeout_override_that_is_not_positive_witness :
  (execute_workflow init CUSTOMER_ANALYSIS ∅ 5 None (Some 0%Z) "a1b2c3d4" 0%Z).2
  = None
  ∧ ∃ r, (execute_workflow init CUSTOMER_ANALYSIS ∅ 5 None (Some (-5)%Z)
            "a1b2c3d4" 0%Z).2 = Some (Returned (Some 0) r)
         ∧ error_message r = Some "Workflow timed out after -5 seconds".
Proof.
  assert (length (WorkflowQueue.queue (queue init))
          < WorkflowQueue.maxlen (queue init)) as Hroom by (vm_compute; lia).
  assert (WorkflowQueue.completed_workflows (queue init)
            !! (WorkflowType_value CUSTOMER_ANALYSIS +:+ "_" +:+ "a1b2c3d4")
          = None) as Hfresh by reflexivity.
  assert (-5 < 0)%Z as Hneg by lia.
  destruct (timeout_override_that_is_not_positive init CUSTOMER_ANALYSIS ∅ 5
              None "a1b2c3d4" 0 (-5) Hroom Hfresh Hneg)
    as (_ & Hzero & _ & Hnegative & _).
  split; [exact Hzero|]. eexists. split; [exact Hnegative|].
  vm_compute. reflexivity.
Defined.

(** X17. The id of an execution is its workflow type and eight
    hexadecimal digits. When a submission draws an id under which the
    completed map already holds an execution, [execute_workflow]
    returns that older execution at once, with its input data and its
    output, and appends it once more to the history of its type; the
    execution just created stays [PENDING] in the queue, with no caller
    waiting for it. *)
Theorem reused_id_returns_the_older_execution
    (m : t) (wt : WorkflowType) (data : Payload) (priority : Z)
    (cid : option string) (tmo : option Z) (uid : string) (now : datetime)
    (older : addr) :
  length (WorkflowQueue.queue (queue m)) < WorkflowQueue.maxlen (queue m) →
  WorkflowQueue.completed_workflows (queue m)
    !! (WorkflowType_value wt +:+ "_" +:+ uid) = Some older →
  older < length (heap m) →
  (0 < effective_timeout tmo)%Z →
  let ref := length (heap m) in
  let call := execute_workflow m wt data priority cid tmo uid now in
  call.2 = Some (Returned (Some older) (obj m older))
  ∧ ledger call.1 (workflow_type (obj m older))
    = kept (submitted call.1)
        (ledger m (workflow_type (obj m older)) ++ [older])
  ∧ obj call.1 ref = created wt data cid uid now
  ∧ WorkflowQueue.queue (queue call.1) = WorkflowQueue.queue (queue m) ++ [ref]
  ∧ waiting call.1 !! ref = None.
Proof.
  intros Hroom Hold Holder Hpos. cbn zeta.
  rewrite execute_workflow_enqueued by done.
  rewrite (poll_reused _ _ _ _ _ _ _ older) by done.
  cbn [fst snd].
  set (e := created wt data cid uid now).
  pose proof (obj_enqueued_old m wt data cid uid now older Holder) as Hobj.
  fold e in Hobj.
  split_and!.
  - by rewrite Hobj.
  - change (ledger (set_waiting (_update_metrics (enqueued m e) older) _))
      with (ledger (_update_metrics (enqueued m e) older)).
    rewrite <-Hobj at 1.
    rewrite update_metrics_ledger, decide_True by done.
    change (ledger (enqueued m e)) with (ledger m). by rewrite Hobj.
  - change (obj (set_waiting (_update_metrics (enqueued m e) older) _))
      with (obj (enqueued m e)).
    apply obj_enqueued_new.
  - done.
  - cbn [waiting set_waiting]. apply lookup_delete_eq.
Qed.

Lemma reused_id_returns_the_older_execution_witness :
  WorkflowQueue.completed_workflows (queue served) !! served_id = Some 0
  ∧ ∃ r, (step served same_id_again).2 = Some (Returned (Some 0) r)
         ∧ input_data r = ∅
         ∧ status (obj (step served same_id_again).1 1) = PENDING.
Proof.
  assert (length (WorkflowQueue.queue (queue served))
          < WorkflowQueue.maxlen (queue served)) as Hroom by (vm_compute; lia).
  assert (WorkflowQueue.completed_workflows (queue served)
            !! (WorkflowType_value CUSTOMER_ANALYSIS +:+ "_" +:+ "a1b2c3d4")
          = Some 0) as Hold by (vm_compute; reflexivity).
  assert (0 < length (heap served)) as Holder by (vm_compute; lia).
  assert (0 < effective_timeout None)%Z as Hpos by (vm_compute; reflexivity).
  destruct (reused_id_returns_the_older_execution served CUSTOMER_ANALYSIS
              {[ "customerName" := VStr "Deniz" ]} 5 None None "a1b2c3d4"
              5000000 0 Hroom Hold Holder Hpos)
    as (Hreply & _ & Hnew & _).
  split; [exact Hold|]. eexists. split; [exact Hreply|].
  split; [vm_compute; reflexivity|].
  change (step served same_id_again).1
    with (execute_workflow served CUSTOMER_ANALYSIS
            {[ "customerName" := VStr "Deniz" ]} 5 None None "a1b2c3d4"
            5000000).1.
  change 1 with (length (heap served)) at 1.
  rewrite Hnew. reflexivity.
Defined.

(** ** What the metrics report *)

Lemma max_by_spec {A} (key : A → Z) (x : A) (l : list A) :
  max_by key x l ∈ x :: l
  ∧ Forall (λ y, (key y ≤ key (max_by key x l))%Z) (x :: l).
Proof.
  revert x. induction l as [|y l IH]; intros x; cbn [max_by].
  - split; [apply list_elem_of_here|]. by apply Forall_singleton.
  - destruct (IH (if (key x <? key y)%Z then y else x)) as [Hin Hmax].
    apply Forall_cons in Hmax as [Hfirst Hrest]. split.
    + apply elem_of_cons in Hin as [->|Hin].
      * destruct (key x <? key y)%Z; [apply list_elem_of_further|]; apply list_elem_of_here.
      * by do 2 apply list_elem_of_further.
    + revert Hfirst Hrest. destruct (Z.ltb_spec (key x) (key y));
        intros Hfirst Hrest;
        (apply Forall_cons; split; [lia|]); (apply Forall_cons; split; [lia|done]).
Qed.

Lemma Qc_of_nat_le (a b : nat) : a ≤ b → (Qc_of_nat a <= Qc_of_nat b)%Qc.
Proof.
  intros Hab. unfold Qcle, Qc_of_nat. cbn [this Q2Qc].
  rewrite !Qred_correct. unfold Qle. cbn. lia.
Qed.

Lemma Qc_of_nat_pos (a : nat) : 0 < a → (0 < Qc_of_nat a)%Qc.
Proof.
  intros Ha. unfold Qclt, Qc_of_nat. cbn [this Q2Qc].
  rewrite !Qred_correct. unfold Qlt. cbn. lia.
Qed.

Lemma Qc_ratio_bounds (s t : nat) :
  s ≤ t → 0 < t →
  (0 <= Qc_of_nat s / Qc_of_nat t * Qc_of_nat 100 <= Qc_of_nat 100)%Qc.
Proof.
  intros Hst Ht.
  pose proof (Qc_of_nat_pos t Ht) as Htpos.
  pose proof (Qc_of_nat_le 0 s ltac:(lia)) as Hs0.
  pose proof (Qc_of_nat_le s t Hst) as Hsle.
  pose proof (Qc_of_nat_le 0 100 ltac:(lia)) as H100.
  change (Qc_of_nat 0) with 0%Qc in *.
  assert (0 <= / Qc_of_nat t)%Qc as Hinv.
  { unfold Qcle, Qcinv. cbn [this Q2Qc]. rewrite !Qred_correct.
    apply Qinv_le_0_compat. by apply Qclt_le_weak in Htpos. }
  assert (Qc_of_nat t ≠ 0%Qc) as Hne.
  { intros Heq. rewrite Heq in Htpos. by apply Qclt_not_eq in Htpos. }
  unfold Qcdiv. split.
  - replace 0%Qc with (0 * / Qc_of_nat t * Qc_of_nat 100)%Qc by ring.
    apply Qcmult_le_compat_r; [|done]. by apply Qcmult_le_compat_r.
  - replace (Qc_of_nat 100) with (Qc_of_nat t * / Qc_of_nat t * Qc_of_nat 100)%Qc at 2
      by (rewrite Qcmult_inv_r by done; ring).
    apply Qcmult_le_compat_r; [|done]. by apply Qcmult_le_compat_r.
Qed.

Lemma metrics_status_counted_once (s : WorkflowStatus) :
  (if decide (s = COMPLETED) then 1 else 0)
  + (if decide (s = FAILED) then 1 else 0)
  + (if decide (s ∈ [PENDING; RUNNING; TIMEOUT; CANCELLED]) then 1 else 0) = 1.
Proof. by destruct s. Qed.

Lemma metrics_partition (l : list WorkflowExecution) :
  length (filter (λ e, status e = COMPLETED) l)
  + length (filter (λ e, status e = FAILED) l)
  + length (filter (λ e, status e ∈ [PENDING; RUNNING; TIMEOUT; CANCELLED]) l)
  = length l.
Proof.
  induction l as [|e l IH]; [done|].
  rewrite !length_filter_cons. cbn [length].
  pose proof (metrics_status_counted_once (status e)). lia.
Qed.

(** X18. The [last_execution] of the metrics of a workflow type is
    the latest submission time among the recorded executions of the
    type, wherever the execution stands in the history (the history is
    in the order of the returns, not of the submissions), and it is
    [None] exactly when nothing is recorded. *)
Theorem last_execution_is_the_newest_start (m : t) (k : WorkflowType) :
  let r := get_workflow_metrics m k in
  (ledger m k = [] ↔ last_execution r = None)
  ∧ (ledger m k ≠ [] →
     ∃ a, a ∈ ledger m k
          ∧ last_execution r = Some (submitted m a)
          ∧ ∀ b, b ∈ ledger m k → (submitted m b ≤ submitted m a)%Z).
Proof.
  cbn zeta. unfold get_workflow_metrics.
  destruct (ledger m k) as [|a0 rest]; [by split|].
  rewrite fmap_cons. unfold metrics_of. cbv zeta. cbn [last_execution].
  split; [by split|]. intros _.
  destruct (max_by_spec started_at (obj m a0) (obj m <$> rest)) as [Hin Hmax].
  rewrite <-fmap_cons in Hin, Hmax.
  apply list_elem_of_fmap in Hin as (a & Ha & Hin).
  exists a. split; [done|]. split; [by rewrite Ha|].
  intros b Hb. rewrite Forall_fmap, Forall_forall in Hmax.
  specialize (Hmax b Hb). cbn in Hmax. by rewrite Ha in Hmax.
Qed.

Lemma last_execution_is_the_newest_start_witness :
  ledger (recorded sample_history) CUSTOMER_ANALYSIS ≠ []
  ∧ ∃ a, last_execution (get_workflow_metrics (recorded sample_history)
                           CUSTOMER_ANALYSIS)
         = Some (submitted (recorded sample_history) a).
Proof.
  assert (ledger (recorded sample_history) CUSTOMER_ANALYSIS ≠ []) as Hsome
    by (vm_compute; discriminate).
  destruct (last_execution_is_the_newest_start (recorded sample_history)
              CUSTOMER_ANALYSIS) as [_ Hlast].
  destruct (Hlast Hsome) as (a & _ & Ha & _).
  split; [exact Hsome|]. exists a. exact Ha.
Defined.

(** X19. In the metrics of a workflow type an execution that timed
    out counts in the total but neither as successful nor as failed
    (nor does a pending, running or cancelled one), so that the
    successes and the failures need not add up to the total; the
    success rate lies between 0 and 100. *)
Theorem timeouts_count_as_neither (m : t) (k : WorkflowType) :
  let r := get_workflow_metrics m k in
  let history := obj m <$> ledger m k in
  successful_executions r + failed_executions r
  + length (filter (λ e, status e ∈ [PENDING; RUNNING; TIMEOUT; CANCELLED])
              history)
  = total_executions r
  ∧ (0 <= success_rate r <= Qc_of_nat 100)%Qc.
Proof.
  cbn zeta. unfold get_workflow_metrics.
  destruct (metrics_of_counts k (obj m <$> ledger m k)) as (-> & -> & ->).
  split; [apply metrics_partition|].
  rewrite metrics_of_success_rate.
  destruct (decide (length (obj m <$> ledger m k) = 0)) as [Hnil|Hsome].
  - split; [done|]. by apply (Qc_of_nat_le 0 100); lia.
  - apply Qc_ratio_bounds; [|lia].
    pose proof (metrics_partition (obj m <$> ledger m k)). lia.
Qed.
